(** * proseq.py: extraction and formatting of protein sequences

    A shallow embedding of [src/proseq.py].  The three stages of the
    program are embedded as the source writes them:

    - [parse_pdb_sequence] reads the lines of a PDB file and builds the
      per-chain lists of [(residue number, residue name)] tuples;
    - [format_sequence] flattens the chains and renders the residue codes;
    - [write_output] and [main] persist the text and decide the exit code.

    Python values are modelled as follows.  A [str] is a [string]; its
    characters are the code points below 256.  An [int] is a [Z].  The
    [defaultdict]s [sequences] and [seen_residues] are [gmap]s keyed by the
    chain identifier, a missing key standing for the default value that a
    read would create.  A [set] is a [gset].  What the program prints on
    [sys.stderr] and [sys.stdout] is kept as a list of messages. *)

From Stdlib Require Import ZArith String Ascii List Sorted Permutation.
From stdpp Require Import base tactics option list sorting gmap strings.

Local Open Scope string_scope.
Local Open Scope Z_scope.

Set Warnings "-clear-no-such-hyp".

(** ** Python string primitives *)

Module Py.

(** Code points [str.strip] and [str.isspace] treat as white space,
    among those below 256. *)
Definition isspace (c : ascii) : bool :=
  match nat_of_ascii c with
  | 9 | 10 | 11 | 12 | 13 | 28 | 29 | 30 | 31 | 32 | 133 | 160 => true
  | _ => false
  end%nat.

Fixpoint lstrip (s : string) : string :=
  match s with
  | String c r => if isspace c then lstrip r else s
  | EmptyString => EmptyString
  end.

Fixpoint rstrip (s : string) : string :=
  match s with
  | String c r =>
      match rstrip r with
      | EmptyString => if isspace c then EmptyString else String c EmptyString
      | r' => String c r'
      end
  | EmptyString => EmptyString
  end.

(** [s.strip()] *)
Definition strip (s : string) : string := rstrip (lstrip s).

(** [s[i:j]]: a slice never raises, it is cut at the end of the string. *)
Definition slice (i j : nat) (s : string) : string := substring i (j - i) s.

(** [s[i]]: [None] stands for [IndexError]. *)
Definition index (i : nat) (s : string) : option string :=
  match String.get i s with
  | Some c => Some (String c EmptyString)
  | None => None
  end.

(** [s.startswith(p)] *)
Definition startswith (s p : string) : bool := String.prefix p s.

(** [sep.join(l)] *)
Definition join (sep : string) (l : list string) : string := String.concat sep l.

(** The value of a decimal digit, [0] having code point 48. *)
Definition digit (c : ascii) : option Z :=
  let code := Z.of_nat (nat_of_ascii c) in
  if decide (48 ≤ code ≤ 57) then Some (code - 48) else None.

(** The digits of a decimal literal: digits, with single underscores
    allowed between two digits.  [prev] tells whether the character just
    read was a digit. *)
Fixpoint digits (acc : Z) (prev : bool) (s : string) : option Z :=
  match s with
  | EmptyString => if prev then Some acc else None
  | String c r =>
      match digit c with
      | Some d => digits (10 * acc + d) true r
      | None => if (Ascii.eqb c "_" && prev)%bool then digits acc false r else None
      end
  end.

(** [int(s)] for a string [s] that was stripped already; [None] stands
    for [ValueError]. *)
Definition int (s : string) : option Z :=
  match s with
  | String "+" r => digits 0 false r
  | String "-" r => Z.opp <$> digits 0 false r
  | _ => digits 0 false s
  end.

(** [a < b] on strings compares code points lexicographically. *)
Definition str_lt (a b : string) : bool := String.ltb a b.

(** [a < b] on tuples [(int, str)]: the first components decide unless
    they are equal. *)
Definition tuple_lt (a b : Z * string) : bool :=
  if decide (a.1 = b.1) then str_lt a.2 b.2 else bool_decide (a.1 < b.1).

(** [x] may stand before [y] in a sorted list: [y < x] does not hold. *)
Definition not_after {A} (lt : A → A → bool) (x y : A) : Prop := lt y x = false.

#[global] Instance not_after_dec {A} (lt : A → A → bool) : RelDecision (not_after lt).
Proof. intros x y. unfold not_after. apply _. Defined.

(** [sorted(l)] and [l.sort()] place [x] before [y] unless [y < x].  The
    orders used here are total, so the resulting list is the only sorted
    rearrangement of [l] (see [sorted_spec] below). *)
Definition sorted {A} (lt : A → A → bool) (l : list A) : list A :=
  merge_sort (not_after lt) l.

End Py.

(** ** The residue code table *)

Definition THREE_TO_ONE : gmap string string :=
  list_to_map
    [ ("ALA", "A"); ("ARG", "R"); ("ASN", "N"); ("ASP", "D"); ("CYS", "C");
      ("GLU", "E"); ("GLN", "Q"); ("GLY", "G"); ("HIS", "H"); ("ILE", "I");
      ("LEU", "L"); ("LYS", "K"); ("MET", "M"); ("PHE", "F"); ("PRO", "P");
      ("SER", "S"); ("THR", "T"); ("TRP", "W"); ("TYR", "Y"); ("VAL", "V") ].

(** ** Messages on the diagnostic stream *)

(** The exception caught for one [ATOM] line. *)
Inductive line_error :=
  | IndexError                      (* line[21] on a line of at most 21 characters *)
  | ValueError (literal : string).  (* int() on a field that is no integer *)

(** One [print(..., file=sys.stderr)].  Each constructor carries the values
    its f-string interpolates. *)
Inductive diagnostic :=
  | WarnSkipLine (stripped_line : string) (e : line_error)
  | ErrSourceNotFound (path : string)
  | ErrSourceRead (path : string) (e : string)
  | WarnUnknownResidues (listing : string)
  | WarnNoAtoms
  | ErrTargetIO (path : string) (e : string)
  | ErrTargetUnexpected (path : string) (e : string).

(** ** parse_pdb_sequence *)

Record residue_record := {
  rec_chain : string;
  rec_seq : Z;
  rec_name : string
}.

(** The body of the inner [try] up to the test on [seen_residues]: the
    fields of one [ATOM] line, or the exception raised while reading them. *)
Definition read_fields (line : string) : line_error + residue_record :=
  let res_name := Py.strip (Py.slice 17 20 line) in
  match Py.index 21 line with
  | None => inl IndexError
  | Some c =>
      let chain_id := Py.strip c in
      let chain_id := if decide (chain_id = "") then "A" else chain_id in
      let res_seq_num_str := Py.strip (Py.slice 22 26 line) in
      match Py.int res_seq_num_str with
      | None => inl (ValueError res_seq_num_str)
      | Some res_seq_num =>
          inr {| rec_chain := chain_id; rec_seq := res_seq_num; rec_name := res_name |}
      end
  end.

(** The two dictionaries the loop updates. *)
Record parse_state := {
  sequences : gmap string (list (Z * string));
  seen_residues : gmap string (gset Z)
}.

Definition initial_state : parse_state :=
  {| sequences := ∅; seen_residues := ∅ |}.

(** Lines 79 to 81.  [seen_residues[chain_id]] creates the empty set of a
    chain when it is read; [sequences[chain_id]] is read only to append. *)
Definition add_residue (st : parse_state) (r : residue_record) : parse_state :=
  let seen := default ∅ (seen_residues st !! rec_chain r) in
  let seen_map := <[rec_chain r := seen]> (seen_residues st) in
  if decide (rec_seq r ∈ seen) then
    {| sequences := sequences st; seen_residues := seen_map |}
  else
    {| sequences :=
         <[rec_chain r :=
             (default [] (sequences st !! rec_chain r) ++ [(rec_seq r, rec_name r)])%list]>
           (sequences st);
       seen_residues := <[rec_chain r := {[rec_seq r]} ∪ seen]> seen_map |}.

(** One iteration of [for line in pdbfile]: the new state and what the
    iteration printed on the diagnostic stream. *)
Definition process_line (st : parse_state) (line : string)
  : parse_state * list diagnostic :=
  if Py.startswith line "ATOM" then
    match read_fields line with
    | inr r => (add_residue st r, [])
    | inl e => (st, [WarnSkipLine (Py.strip line) e])
    end
  else (st, []).

Fixpoint process_lines (st : parse_state) (lines : list string)
  : parse_state * list diagnostic :=
  match lines with
  | [] => (st, [])
  | line :: rest =>
      let '(st', w) := process_line st line in
      let '(st'', ws) := process_lines st' rest in
      (st'', (w ++ ws)%list)
  end.

(** What opening and iterating over the source file does: the file is
    missing, or an exception ends the reading after some lines were
    delivered, or all lines are delivered.  A line is delivered with its
    line terminator. *)
Inductive read_outcome :=
  | ReadNotFound
  | ReadFails (delivered : list string) (e : string)
  | ReadOk (lines : list string).

(** Lines 94 to 96. *)
Definition sort_chains (seqs : gmap string (list (Z * string)))
  : gmap string (list (Z * string)) :=
  Py.sorted Py.tuple_lt <$> seqs.

(** [parse_pdb_sequence(pdb_filepath)], given what reading [pdb_filepath]
    does.  [None] is Python's [None]. *)
Definition parse_pdb_sequence (pdb_filepath : string) (src : read_outcome)
  : option (gmap string (list (Z * string))) * list diagnostic :=
  match src with
  | ReadNotFound => (None, [ErrSourceNotFound pdb_filepath])
  | ReadFails delivered e =>
      (None, ((process_lines initial_state delivered).2 ++ [ErrSourceRead pdb_filepath e])%list)
  | ReadOk lines =>
      let '(st, ws) := process_lines initial_state lines in
      (Some (sort_chains (sequences st)), ws)
  end.

(** The Document of a file that was read to its end. *)
Definition document (lines : list string) : gmap string (list (Z * string)) :=
  sort_chains (sequences (process_lines initial_state lines).1).

(** ** format_sequence *)

(** [sorted(sequences.keys())] *)
Definition sorted_keys (sequences : gmap string (list (Z * string))) : list string :=
  Py.sorted Py.str_lt (elements (dom sequences)).

(** [[res_name for res_seq, res_name in sequences[chain_id]]] *)
Definition chain_seq (sequences : gmap string (list (Z * string))) (chain_id : string)
  : list string :=
  snd <$> default [] (sequences !! chain_id).

(** Lines 117 to 119: the residue names of all chains, chain after chain. *)
Definition full_sequence_list (sequences : gmap string (list (Z * string)))
  : list string :=
  foldl (λ acc chain_id, (acc ++ chain_seq sequences chain_id)%list) [] (sorted_keys sequences).

(** The body of the loop of lines 127 to 132, on the pair
    [(formatted_residues, unknown_residues)]. *)
Definition one_letter_step (acc : list string * gset string) (res_name : string)
  : list string * gset string :=
  let one_letter_code := default "X" (THREE_TO_ONE !! res_name) in
  let unknown_residues :=
    if decide (one_letter_code = "X" ∧ THREE_TO_ONE !! res_name = None)
    then {[res_name]} ∪ acc.2 else acc.2 in
  ((acc.1 ++ [one_letter_code])%list, unknown_residues).

Definition newline : string := String "010" "".

(** [format_sequence(sequences, code_format, output_style)]: the string
    returned and what was printed on the diagnostic stream. *)
Definition format_sequence (sequences : gmap string (list (Z * string)))
    (code_format output_style : string) : string * list diagnostic :=
  let names := full_sequence_list sequences in
  match names with
  | [] => ("", [])
  | _ :: _ =>
      let '(formatted_residues, unknown_residues, separator) :=
        if decide (code_format = "one-letter") then
          (foldl one_letter_step ([], ∅) names, "")
        else
          (names, ∅, " ") in
      let warning :=
        if decide (unknown_residues = ∅) then []
        else [WarnUnknownResidues
                (Py.join ", " (Py.sorted Py.str_lt (elements unknown_residues)))] in
      if decide (output_style = "single-line") then
        (Py.join separator formatted_residues, warning)
      else
        (Py.join newline formatted_residues, warning)
  end.

(** ** write_output and main *)

(** The files on disk, and the paths that were opened for writing. *)
Record filesystem := {
  contents : gmap string string;
  opened_for_writing : list string
}.

(** What [open(target_filepath, 'w')] and the [write] in its block do:
    both succeed, or the [open] raises, or the file is opened (and
    truncated) and an exception is raised once [flushed] reached the file.
    [io] tells whether the exception is an [IOError]. *)
Inductive write_outcome :=
  | WriteOk
  | OpenFails (io : bool) (e : string)
  | WriteFails (io : bool) (e : string) (flushed : string).

Definition target_error (io : bool) (path e : string) : diagnostic :=
  if io then ErrTargetIO path e else ErrTargetUnexpected path e.

(** [write_output(target_filepath, content)] *)
Definition write_output (target_filepath content : string)
    (oc : write_outcome) (fs : filesystem) : bool * filesystem * list diagnostic :=
  match oc with
  | WriteOk =>
      (true,
       {| contents := <[target_filepath := content +:+ newline]> (contents fs);
          opened_for_writing := (opened_for_writing fs ++ [target_filepath])%list |},
       [])
  | OpenFails io e => (false, fs, [target_error io target_filepath e])
  | WriteFails io e flushed =>
      (false,
       {| contents := <[target_filepath := flushed]> (contents fs);
          opened_for_writing := (opened_for_writing fs ++ [target_filepath])%list |},
       [target_error io target_filepath e])
  end.

(** The result of [parser.parse_args()]. *)
Record arguments := {
  source : string;
  target : string;
  format : string;
  output_style : string
}.

(** What the operating system answers to the program. *)
Record environment := {
  reading : string → read_outcome;
  writing : string → string → write_outcome
}.

(** A finished run. *)
Record run := {
  exit_code : Z;
  disk : filesystem;
  stdout : list string;
  stderr : list diagnostic
}.

(** [main()], after the arguments were parsed. *)
Definition main (env : environment) (args : arguments) (fs : filesystem) : run :=
  let out :=
    [ "Process PDB file: " +:+ source args;
      "Output format: " +:+ format args +:+ ", Output style: " +:+ output_style args ] in
  match parse_pdb_sequence (source args) (reading env (source args)) with
  | (None, err) =>
      {| exit_code := 1; disk := fs; stdout := out; stderr := err |}
  | (Some sequences_data, err) =>
      let '(formatted_output, err') :=
        if decide (sequences_data = ∅) then ("", [WarnNoAtoms])
        else format_sequence sequences_data (format args) (output_style args) in
      let '(ok, fs', err'') :=
        write_output (target args) formatted_output
          (writing env (target args) (formatted_output +:+ newline)) fs in
      if ok then
        {| exit_code := 0; disk := fs';
           stdout := (out ++ ["Sequence written successfully in '" +:+ target args +:+ "'-"])%list;
           stderr := (err ++ err' ++ err'')%list |}
      else
        {| exit_code := 1; disk := fs'; stdout := out;
           stderr := (err ++ err' ++ err'')%list |}
  end.

(** ** Vocabulary of the statements *)

(** The state of the two dictionaries once [lines] were read, and what was
    printed meanwhile. *)
Definition final_state (lines : list string) : parse_state :=
  (process_lines initial_state lines).1.

Definition warnings (lines : list string) : list diagnostic :=
  (process_lines initial_state lines).2.

(** [sequences[c]] and [seen_residues[c]], with the default of a missing key. *)
Definition chain_records (st : parse_state) (c : string) : list (Z * string) :=
  default [] (sequences st !! c).

Definition chain_seen (st : parse_state) (c : string) : gset Z :=
  default ∅ (seen_residues st !! c).

(** The record that reaches lines 79 to 81 for a line of the file, if any. *)
Definition record_of (line : string) : option residue_record :=
  if Py.startswith line "ATOM" then
    match read_fields line with
    | inr r => Some r
    | inl _ => None
    end
  else None.

(** What one iteration prints, whatever the state. *)
Definition line_warning (line : string) : list diagnostic :=
  if Py.startswith line "ATOM" then
    match read_fields line with
    | inr _ => []
    | inl e => [WarnSkipLine (Py.strip line) e]
    end
  else [].

(** Column 22 of a line, a blank standing for chain [A]. *)
Definition chain_column (line : string) : option string :=
  (λ c, if decide (Py.strip c = "") then "A" else Py.strip c) <$> Py.index 21 line.

(** An [ATOM] line as the format has it: long enough to hold column 22,
    with an integer in columns 23 to 26. *)
Definition well_formed (line : string) : Prop :=
  is_Some (Py.index 21 line) ∧ is_Some (Py.int (Py.strip (Py.slice 22 26 line))).

(** The first line of [lines] that carries residue [n] of chain [c] names
    it [name]. *)
Definition first_occurrence (lines : list string) (c : string) (n : Z) (name : string)
  : Prop :=
  ∃ before line after,
    lines = (before ++ line :: after)%list ∧
    record_of line = Some {| rec_chain := c; rec_seq := n; rec_name := name |} ∧
    ∀ line' r, line' ∈ before → record_of line' = Some r →
               ¬ (rec_chain r = c ∧ rec_seq r = n).

(** The code of one residue in the one-letter format. *)
Definition one_letter (res_name : string) : string :=
  default "X" (THREE_TO_ONE !! res_name).

(** The tokens that [format_sequence] joins. *)
Definition residue_tokens (code_format : string)
    (sequences : gmap string (list (Z * string))) : list string :=
  if decide (code_format = "one-letter")
  then one_letter <$> full_sequence_list sequences
  else full_sequence_list sequences.

(** The separator that joins the tokens. *)
Definition token_separator (code_format output_style : string) : string :=
  if decide (output_style = "single-line")
  then (if decide (code_format = "one-letter") then "" else " ")
  else newline.

(** The residue names of a Document that the table does not know. *)
Definition unknown_names (sequences : gmap string (list (Z * string))) : gset string :=
  (foldl one_letter_step ([], ∅) (full_sequence_list sequences)).2.

(** [a < b] holds. *)
Definition str_before (a b : string) : Prop := Py.str_lt a b = true.

(** The scenario of the specification: three [ATOM] lines, and the
    Document they stand for. *)
Definition scenario_lines : list string :=
  [ "ATOM      1  CA  ALA A   5      11.104  13.207   2.100  1.00 20.00           C" +:+ newline;
    "ATOM      2  CA  GLY A   6      12.560  13.329   2.266  1.00 20.00           C" +:+ newline;
    "ATOM      3  CA  SER B   1      13.101  14.722   2.738  1.00 20.00           C" +:+ newline ].

Definition scenario_document : gmap string (list (Z * string)) :=
  {[ "A" := [(5, "ALA"); (6, "GLY")]; "B" := [(1, "SER")] ]}.

(** A file with repeated residues, out of order, with a blank chain column. *)
Definition sample_lines : list string :=
  [ "HEADER    HYDROLASE" +:+ newline;
    "ATOM      1  N   GLY B   7      11.104  13.207   2.100  1.00 20.00           N" +:+ newline;
    "ATOM      2  CA  GLY B   7      12.560  13.329   2.266  1.00 20.00           C" +:+ newline;
    "ATOM      3  CA  SER B   2      13.101  14.722   2.738  1.00 20.00           C" +:+ newline;
    "ATOM      4  CA  MSE     3      13.101  14.722   2.738  1.00 20.00           C" +:+ newline;
    "ATOM      5  CB  ALA B   2      13.101  14.722   2.738  1.00 20.00           C" +:+ newline;
    "END" +:+ newline ].

(** An [ATOM] line whose residue number is no integer, and one that ends
    before column 22. *)
Definition bad_number_line : string :=
  "ATOM      6  CA  TRP B  1A      13.101  14.722   2.738  1.00 20.00           C" +:+ newline.

Definition short_line : string := "ATOM      7  CA" +:+ newline.

(** An environment in which [in.pdb] holds [sample_lines], no other file
    can be read, and every file can be written. *)
Definition sample_environment : environment :=
  {| reading := λ path, if decide (path = "in.pdb") then ReadOk sample_lines
                        else if decide (path = "broken.pdb")
                             then ReadFails [short_line] "invalid start byte"
                             else ReadNotFound;
     writing := λ _ _, WriteOk |}.

Definition empty_disk : filesystem := {| contents := ∅; opened_for_writing := [] |}.

Definition sample_arguments : arguments :=
  {| source := "in.pdb"; target := "out.txt";
     format := "one-letter"; output_style := "single-line" |}.

Definition missing_arguments : arguments :=
  {| source := "missing.pdb"; target := "out.txt";
     format := "one-letter"; output_style := "single-line" |}.

(** What the loop keeps true of its two dictionaries: the set of a chain
    holds the numbers of its list, no number is listed twice, and no list
    is empty. *)
Record state_ok (st : parse_state) : Prop := {
  ok_seen : ∀ c n, n ∈ chain_seen st c ↔ n ∈ (chain_records st c).*1;
  ok_nodup : ∀ c, NoDup (chain_records st c).*1;
  ok_nonempty : ∀ c, sequences st !! c ≠ Some []
}.

(** The records that reach lines 79 to 81, in the order of the file. *)
Definition records (lines : list string) : list residue_record :=
  omap record_of lines.

#[global] Instance residue_record_eq_dec : EqDecision residue_record.
Proof. solve_decision. Defined.

(** A record is one of residue [n] of chain [c]. *)
Definition carries (c : string) (n : Z) (r : residue_record) : Prop :=
  rec_chain r = c ∧ rec_seq r = n.

#[global] Instance carries_dec (c : string) (n : Z) (r : residue_record) :
  Decision (carries c n r).
Proof. unfold carries. apply _. Defined.

(** The record of the first line of the file that carries residue [n] of
    chain [c]. *)
Definition first_record (lines : list string) (c : string) (n : Z)
  : option residue_record :=
  head (filter (carries c n) (records lines)).

(** An [ATOM] line whose fields can be read. *)
Definition readable (line : string) : Prop :=
  Py.startswith line "ATOM" = true ∧ well_formed line.

#[global] Instance readable_dec (line : string) : Decision (readable line).
Proof. unfold readable, well_formed. apply _. Defined.

(** An [ATOM] line whose fields cannot be read, and the exception it raises. *)
Definition skipped (line : string) : Prop :=
  Py.startswith line "ATOM" = true ∧ ¬ well_formed line.

#[global] Instance skipped_dec (line : string) : Decision (skipped line).
Proof. unfold skipped, well_formed. apply _. Defined.

Definition skip_error (line : string) : line_error :=
  match Py.index 21 line with
  | None => IndexError
  | Some _ => ValueError (Py.strip (Py.slice 22 26 line))
  end.

(** Two lines carry the same residue of the same chain. *)
Definition same_residue (x y : string) : Prop :=
  match record_of x, record_of y with
  | Some rx, Some ry => rec_chain rx = rec_chain ry ∧ rec_seq rx = rec_seq ry
  | _, _ => False
  end.

#[global] Instance same_residue_dec (x y : string) : Decision (same_residue x y).
Proof.
  unfold same_residue. destruct (record_of x), (record_of y); apply _.
Defined.

(** The residue numbers that the readable lines of a file carry for chain [c]. *)
Definition carried_numbers (lines : list string) (c : string) : gset Z :=
  list_to_set (rec_seq <$> filter (λ r, rec_chain r = c) (records lines)).

(** [sample_lines] in another order, the lines of one residue keeping
    their order. *)
Definition sample_lines_reordered : list string :=
  (drop 3 (take 5 sample_lines) ++ take 3 sample_lines ++ drop 5 sample_lines)%list.

(** A string of one character. *)
Definition single_character (s : string) : Prop := ∃ a, s = String a "".

(** Every residue name of a Document is in the code table. *)
Definition all_standard (sequences : gmap string (list (Z * string))) : Prop :=
  Forall (λ name, is_Some (THREE_TO_ONE !! name)) (full_sequence_list sequences).

#[global] Instance all_standard_dec (sequences : gmap string (list (Z * string))) :
  Decision (all_standard sequences).
Proof. unfold all_standard. apply _. Defined.

(** A Document of residues outside the table. *)
Definition modified_document : gmap string (list (Z * string)) :=
  {[ "A" := [(1, "MSE"); (2, "ALA"); (3, "HOH")]; "H" := [(1, "MSE")] ]}.

(** The scenario's residues in one chain. *)
Definition scenario_single_chain : gmap string (list (Z * string)) :=
  {[ "C" := [(10, "ALA"); (20, "GLY"); (30, "SER")] ]}.

(** The text that [main] hands to [write_output] once [lines] were read. *)
Definition formatted_text (lines : list string) (args : arguments) : string :=
  (format_sequence (document lines) (format args) (output_style args)).1.

(** The two lines [main] prints before it reads, and the line it prints
    after it wrote. *)
Definition progress_lines (args : arguments) : list string :=
  [ "Process PDB file: " +:+ source args;
    "Output format: " +:+ format args +:+ ", Output style: " +:+ output_style args ].

Definition success_line (args : arguments) : string :=
  "Sequence written successfully in '" +:+ target args +:+ "'-".

(** An environment in which the target cannot be opened, one in which the
    write breaks off after two characters, and a source without [ATOM] line. *)
Definition read_only_environment : environment :=
  {| reading := reading sample_environment;
     writing := λ _ _, OpenFails true "Permission denied" |}.

Definition full_disk_environment : environment :=
  {| reading := reading sample_environment;
     writing := λ _ _, WriteFails true "No space left on device" "XS" |}.

Definition headers_environment : environment :=
  {| reading := λ _, ReadOk ["HEADER" +:+ newline; short_line];
     writing := λ _ _, WriteOk |}.

(** An [ATOM] line that ends inside columns 23 to 26: after the chain
    identifier only two characters of the number field are left. *)
Definition truncated_line : string := "ATOM      1  CA  ALA A12" +:+ newline.

(** ** The command line *)

(** What [parser.parse_args()] (lines 179 to 202) does with the command
    line: [-h] prints the help on standard output and ends the process
    with status 0; a missing positional argument, an unknown option or a
    value outside the choices prints the usage and an error on the
    diagnostic stream and ends the process with status 2; otherwise the
    arguments are returned.  The texts are those of the library. *)
Inductive parse_outcome :=
  | HelpRequested (help : string)
  | UsageError (usage : string)
  | Parsed (args : arguments).

(** How the process ends: inside [parse_args], or with [main] going on
    from line 204. *)
Inductive process_end :=
  | ParserExit (status : Z) (on_stdout on_stderr : list string)
  | MainReturns (r : run).

(** [main()] from its first line. *)
Definition program (cmdline : parse_outcome) (env : environment) (fs : filesystem)
  : process_end :=
  match cmdline with
  | HelpRequested help => ParserExit 0 [help] []
  | UsageError usage => ParserExit 2 [] [usage]
  | Parsed args => MainReturns (main env args fs)
  end.

Definition exit_status (p : process_end) : Z :=
  match p with
  | ParserExit status _ _ => status
  | MainReturns r => exit_code r
  end.

Definition printed_on_stdout (p : process_end) : list string :=
  match p with
  | ParserExit _ on_stdout _ => on_stdout
  | MainReturns r => stdout r
  end.

(** * Properties *)

(** ** Sorting *)

Section sorting_facts.

Lemma not_after_str_le (x y : string) :
  Py.not_after Py.str_lt x y ↔ String.le x y.
Proof.
  unfold Py.not_after, Py.str_lt, String.le, String.ltb, String.leb.
  rewrite (String.compare_antisym x y).
  destruct (String.compare y x); simpl; intuition (auto; discriminate).
Qed.

#[global] Instance not_after_str_total : Total (Py.not_after Py.str_lt).
Proof.
  intros x y. rewrite !not_after_str_le. apply String.le_total.
Qed.

#[global] Instance not_after_str_trans : Transitive (Py.not_after Py.str_lt).
Proof.
  intros x y z. rewrite !not_after_str_le. apply transitivity.
Qed.

#[global] Instance not_after_str_antisym : AntiSymm (=) (Py.not_after Py.str_lt).
Proof.
  intros x y. rewrite !not_after_str_le. apply (anti_symm String.le).
Qed.

Lemma not_after_tuple (a b : Z * string) :
  Py.not_after Py.tuple_lt a b ↔ a.1 < b.1 ∨ (a.1 = b.1 ∧ String.le a.2 b.2).
Proof.
  unfold Py.not_after, Py.tuple_lt.
  destruct (decide (b.1 = a.1)) as [E|N].
  - fold (Py.not_after Py.str_lt a.2 b.2). rewrite not_after_str_le.
    intuition lia.
  - rewrite bool_decide_eq_false. intuition lia.
Qed.

#[global] Instance not_after_tuple_total : Total (Py.not_after Py.tuple_lt).
Proof.
  intros a b. rewrite !not_after_tuple.
  destruct (Z.lt_total a.1 b.1) as [?|[E|?]]; [auto | | auto].
  destruct (String.le_total a.2 b.2); auto.
Qed.

#[global] Instance not_after_tuple_trans : Transitive (Py.not_after Py.tuple_lt).
Proof.
  intros a b c. rewrite !not_after_tuple.
  intros [?|[E1 L1]] [?|[E2 L2]]; [left; lia .. |].
  right. split; [lia | by etrans].
Qed.

#[global] Instance not_after_tuple_antisym : AntiSymm (=) (Py.not_after Py.tuple_lt).
Proof.
  intros [a1 a2] [b1 b2]. rewrite !not_after_tuple. simpl.
  intros [?|[E1 L1]] [?|[E2 L2]]; try lia.
  f_equal; [done | by apply (anti_symm String.le)].
Qed.

Context {A : Type} (lt : A → A → bool).
Context `{!Total (Py.not_after lt), !Transitive (Py.not_after lt),
          !AntiSymm (=) (Py.not_after lt)}.

Lemma sorted_Permutation (l : list A) : Py.sorted lt l ≡ₚ l.
Proof. apply merge_sort_Permutation. Qed.

Lemma sorted_Sorted (l : list A) : Sorted (Py.not_after lt) (Py.sorted lt l).
Proof. apply (Sorted_merge_sort _). Qed.

Lemma sorted_StronglySorted (l : list A) :
  StronglySorted (Py.not_after lt) (Py.sorted lt l).
Proof. apply (StronglySorted_merge_sort _). Qed.

(** Whatever algorithm Python runs, its result is a sorted rearrangement
    of the list, and there is one only. *)
Lemma sorted_spec (l l' : list A) :
  l' ≡ₚ l → Sorted (Py.not_after lt) l' → l' = Py.sorted lt l.
Proof.
  intros HP HS. apply (Sorted_unique (Py.not_after lt)); [done | | ].
  - apply sorted_Sorted.
  - by rewrite sorted_Permutation.
Qed.

Lemma elem_of_sorted (l : list A) (x : A) : x ∈ Py.sorted lt l ↔ x ∈ l.
Proof. by rewrite sorted_Permutation. Qed.

End sorting_facts.

(** ** The extractor *)

Section extractor_facts.

Lemma process_line_fst (st : parse_state) (line : string) :
  (process_line st line).1 =
    match record_of line with Some r => add_residue st r | None => st end.
Proof.
  unfold process_line, record_of.
  destruct (Py.startswith line "ATOM"); [|done].
  by destruct (read_fields line).
Qed.

Lemma process_line_snd (st : parse_state) (line : string) :
  (process_line st line).2 = line_warning line.
Proof.
  unfold process_line, line_warning.
  destruct (Py.startswith line "ATOM"); [|done].
  by destruct (read_fields line).
Qed.

Lemma process_lines_cons (st : parse_state) (line : string) (rest : list string) :
  process_lines st (line :: rest) =
    ((process_lines (process_line st line).1 rest).1,
     ((process_line st line).2 ++ (process_lines (process_line st line).1 rest).2)%list).
Proof.
  simpl. destruct (process_line st line) as [st' w]. simpl.
  by destruct (process_lines st' rest).
Qed.

Lemma process_lines_app (st : parse_state) (l1 l2 : list string) :
  process_lines st (l1 ++ l2) =
    ((process_lines (process_lines st l1).1 l2).1,
     ((process_lines st l1).2 ++ (process_lines (process_lines st l1).1 l2).2)%list).
Proof.
  revert st. induction l1 as [|x l1 IH]; intros st.
  - simpl. by destruct (process_lines st l2).
  - rewrite <- app_comm_cons, !process_lines_cons, IH. simpl.
    by rewrite app_assoc.
Qed.

Lemma process_lines_snd (st : parse_state) (lines : list string) :
  (process_lines st lines).2 = concat (line_warning <$> lines).
Proof.
  revert st. induction lines as [|x lines IH]; intros st; [done|].
  rewrite process_lines_cons. simpl. by rewrite IH, process_line_snd.
Qed.

Lemma final_state_snoc (lines : list string) (line : string) :
  final_state (lines ++ [line]) =
    match record_of line with
    | Some r => add_residue (final_state lines) r
    | None => final_state lines
    end.
Proof.
  unfold final_state. rewrite process_lines_app, process_lines_cons.
  simpl. apply process_line_fst.
Qed.

(** *** What [add_residue] does to one chain *)

Lemma chain_seen_add (st : parse_state) (r : residue_record) (c : string) :
  chain_seen (add_residue st r) c =
    if decide (c = rec_chain r) then {[rec_seq r]} ∪ chain_seen st c
    else chain_seen st c.
Proof.
  unfold add_residue, chain_seen.
  destruct (decide (c = rec_chain r)) as [->|Hc].
  - destruct (decide (rec_seq r ∈ _)) as [Hin|Hin]; simpl.
    + rewrite lookup_insert_eq. simpl. set_solver.
    + by rewrite lookup_insert_eq.
  - destruct (decide (rec_seq r ∈ _)); simpl;
      by rewrite ?lookup_insert_ne by done.
Qed.

Lemma sequences_add (st : parse_state) (r : residue_record) (c : string) :
  sequences (add_residue st r) !! c =
    if decide (c = rec_chain r ∧ rec_seq r ∉ chain_seen st c)
    then Some (chain_records st c ++ [(rec_seq r, rec_name r)])%list
    else sequences st !! c.
Proof.
  unfold add_residue, chain_seen, chain_records.
  destruct (decide (rec_seq r ∈ _)) as [Hin|Hin]; simpl.
  - case_decide as H; [|done]. destruct H as [-> H]. done.
  - destruct (decide (c = rec_chain r)) as [->|Hc].
    + rewrite lookup_insert_eq. by rewrite decide_True.
    + rewrite lookup_insert_ne by done. rewrite decide_False; [done|]. tauto.
Qed.

Lemma chain_records_add (st : parse_state) (r : residue_record) (c : string) :
  chain_records (add_residue st r) c =
    if decide (c = rec_chain r ∧ rec_seq r ∉ chain_seen st c)
    then (chain_records st c ++ [(rec_seq r, rec_name r)])%list
    else chain_records st c.
Proof.
  unfold chain_records at 1. rewrite sequences_add. by case_decide.
Qed.

(** *** Invariants of the loop *)

Lemma initial_state_ok : state_ok initial_state.
Proof.
  split; intros c; unfold chain_seen, chain_records; simpl;
    rewrite ?lookup_empty; simpl.
  - intros n. set_solver.
  - constructor.
  - done.
Qed.

Lemma add_residue_ok (st : parse_state) (r : residue_record) :
  state_ok st → state_ok (add_residue st r).
Proof.
  intros [Hseen Hnodup Hne]. split.
  - intros c n. rewrite chain_seen_add, chain_records_add.
    destruct (decide (c = rec_chain r)) as [->|Hc].
    + case_decide as H.
      * rewrite fmap_app. simpl. rewrite elem_of_app, elem_of_union, Hseen.
        set_solver.
      * assert (rec_seq r ∈ chain_seen st (rec_chain r)) as Hin.
        { destruct (decide (rec_seq r ∈ chain_seen st (rec_chain r))); tauto. }
        rewrite elem_of_union, elem_of_singleton, <- Hseen. naive_solver.
    + rewrite decide_False by tauto. apply Hseen.
  - intros c. rewrite chain_records_add. case_decide as H; [|done].
    destruct H as [-> H]. rewrite fmap_app. simpl.
    apply NoDup_app. split; [done|]. split; [|apply NoDup_singleton].
    intros n Hn ->%list_elem_of_singleton. by apply H, Hseen.
  - intros c. rewrite sequences_add. case_decide; [|done].
    intros [=E]. by destruct (chain_records st c).
Qed.

Lemma final_state_ok (lines : list string) : state_ok (final_state lines).
Proof.
  induction lines as [|line lines IH] using rev_ind.
  - apply initial_state_ok.
  - rewrite final_state_snoc. destruct (record_of line); [|done].
    by apply add_residue_ok.
Qed.

(** *** The state in terms of the lines read *)

Lemma first_occurrence_snoc (lines : list string) (x c : string) (n : Z) (name : string) :
  first_occurrence (lines ++ [x]) c n name ↔
    first_occurrence lines c n name ∨
    (record_of x = Some {| rec_chain := c; rec_seq := n; rec_name := name |} ∧
     ∀ line' r, line' ∈ lines → record_of line' = Some r →
                ¬ (rec_chain r = c ∧ rec_seq r = n)).
Proof.
  split.
  - intros (before & line & after & Heq & Hrec & Hfirst).
    destruct after as [|y after _] using rev_ind.
    + apply app_inj_tail in Heq as [-> ->]. by right.
    + left. exists before, line, after.
      rewrite app_comm_cons, app_assoc in Heq.
      by apply app_inj_tail in Heq as [-> _].
  - intros [(before & line & after & -> & Hrec & Hfirst) | [Hrec Hfirst]].
    + exists before, line, (after ++ [x])%list.
      by rewrite <- app_assoc, <- app_comm_cons.
    + by exists lines, x, [].
Qed.

(** A number is in the set of its chain exactly when a line read so far
    carried it. *)
Lemma chain_seen_lines (lines : list string) (c : string) (n : Z) :
  n ∈ chain_seen (final_state lines) c ↔
    ∃ line r, line ∈ lines ∧ record_of line = Some r ∧
              rec_chain r = c ∧ rec_seq r = n.
Proof.
  induction lines as [|x lines IH] using rev_ind.
  - unfold chain_seen. simpl. rewrite lookup_empty. simpl. split.
    + set_solver.
    + intros (line & _ & H & _). by apply elem_of_nil in H.
  - rewrite final_state_snoc. destruct (record_of x) as [rx|] eqn:Hx.
    + rewrite chain_seen_add. case_decide as Hc.
      * rewrite elem_of_union, elem_of_singleton, IH. split.
        -- intros [->|(line & r & Hin & ?)].
           ++ exists x, rx. rewrite elem_of_app, list_elem_of_singleton. auto.
           ++ exists line, r. rewrite elem_of_app. auto.
        -- intros (line & r & [Hin| ->%list_elem_of_singleton]%elem_of_app & Hr & Hrc & Hrn).
           ++ right. by exists line, r.
           ++ left. congruence.
      * rewrite IH. split.
        -- intros (line & r & Hin & ?). exists line, r. rewrite elem_of_app. auto.
        -- intros (line & r & [Hin| ->%list_elem_of_singleton]%elem_of_app & Hr & Hrc & Hrn).
           ++ by exists line, r.
           ++ congruence.
    + rewrite IH. split.
      * intros (line & r & Hin & ?). exists line, r. rewrite elem_of_app. auto.
      * intros (line & r & [Hin| ->%list_elem_of_singleton]%elem_of_app & Hr & Hrc & Hrn).
        -- by exists line, r.
        -- congruence.
Qed.

(** The list of a chain holds the first occurrences, and nothing else. *)
Lemma chain_records_lines (lines : list string) (c : string) (n : Z) (name : string) :
  (n, name) ∈ chain_records (final_state lines) c ↔ first_occurrence lines c n name.
Proof.
  induction lines as [|x lines IH] using rev_ind.
  - unfold chain_records. simpl. rewrite lookup_empty. simpl. split.
    + intros H. by apply elem_of_nil in H.
    + intros (before & line & after & Heq & _). by destruct before.
  - rewrite first_occurrence_snoc, final_state_snoc, <- IH.
    destruct (record_of x) as [[rc rn rname]|] eqn:Hx; [|naive_solver].
    rewrite chain_records_add. simpl. case_decide as Hc.
    + destruct Hc as [-> Hnew]. rewrite elem_of_app, list_elem_of_singleton.
      apply or_iff_compat_l. split.
      * intros [= -> ->]. split; [done|].
        intros line' r Hin Hr [Hrc Hrn]. apply Hnew, chain_seen_lines.
        by exists line', r.
      * by intros [[= -> ->] _].
    + split; [auto|]. intros [?|[[= -> -> ->] Hfirst]]; [done|].
      exfalso. apply Hc. split; [done|]. intros Hin.
      apply chain_seen_lines in Hin as (line & r & Hin & Hr & Hrc & Hrn).
      by apply (Hfirst line r).
Qed.

(** *** The sorted Document *)

Lemma document_lookup (lines : list string) (c : string) :
  document lines !! c =
    Py.sorted Py.tuple_lt <$> sequences (final_state lines) !! c.
Proof. unfold document, sort_chains. by rewrite lookup_fmap. Qed.

Lemma dom_document (lines : list string) :
  dom (document lines) = dom (sequences (final_state lines)).
Proof. unfold document, sort_chains. by rewrite dom_fmap_L. Qed.

Lemma dom_sequences_add (st : parse_state) (r : residue_record) :
  state_ok st →
  dom (sequences (add_residue st r)) = {[rec_chain r]} ∪ dom (sequences st).
Proof.
  intros Hok. apply set_eq. intros c.
  rewrite elem_of_union, elem_of_singleton, !elem_of_dom, sequences_add.
  case_decide as H.
  - destruct H as [-> _]. split; [auto|]. by eauto.
  - split; [auto|]. intros [->|?]; [|done].
    assert (rec_seq r ∈ chain_seen st (rec_chain r)) as Hin.
    { destruct (decide (rec_seq r ∈ chain_seen st (rec_chain r))); tauto. }
    apply (ok_seen _ Hok) in Hin. unfold chain_records in Hin.
    destruct (sequences st !! rec_chain r); [by eauto|].
    by apply elem_of_nil in Hin.
Qed.

Lemma dom_final_state (lines : list string) :
  dom (sequences (final_state lines)) =
    list_to_set (rec_chain <$> omap record_of lines).
Proof.
  induction lines as [|x lines IH] using rev_ind; [done|].
  rewrite final_state_snoc, omap_app, fmap_app, list_to_set_app_L. simpl.
  destruct (record_of x) as [rx|]; simpl.
  - rewrite dom_sequences_add by apply final_state_ok. rewrite IH. set_solver.
  - rewrite IH. set_solver.
Qed.

Lemma parse_pdb_sequence_ok (path : string) (lines : list string) :
  parse_pdb_sequence path (ReadOk lines) = (Some (document lines), warnings lines).
Proof.
  unfold parse_pdb_sequence, document, warnings.
  by destruct (process_lines initial_state lines).
Qed.

Lemma parse_pdb_sequence_Some (path : string) (src : read_outcome)
    (d : gmap string (list (Z * string))) :
  (parse_pdb_sequence path src).1 = Some d →
  ∃ lines, src = ReadOk lines ∧ d = document lines.
Proof.
  destruct src as [| |lines]; [done..|].
  rewrite parse_pdb_sequence_ok. intros [= <-]. by exists lines.
Qed.

Lemma strictly_sorted_fst (l : list (Z * string)) :
  StronglySorted (Py.not_after Py.tuple_lt) l → NoDup l.*1 →
  StronglySorted Z.lt l.*1.
Proof.
  induction 1 as [|a l Hl IH Ha]; intros Hnd; simpl; [constructor|].
  apply NoDup_cons in Hnd as [Hnotin Hnd].
  constructor; [by apply IH|].
  apply Forall_fmap, Forall_forall. intros b Hb. simpl.
  rewrite Forall_forall in Ha. pose proof (Ha b Hb) as Hab.
  apply not_after_tuple in Hab.
  destruct Hab as [?|[E _]]; [done|].
  exfalso. apply Hnotin. rewrite E. by apply list_elem_of_fmap_2.
Qed.

Lemma record_of_None_skip (st : parse_state) (l1 l2 : list string) (x : string) :
  record_of x = None →
  (process_lines st (l1 ++ x :: l2)).1 = (process_lines st (l1 ++ l2)).1.
Proof.
  intros Hx. rewrite !process_lines_app, process_lines_cons. simpl.
  by rewrite process_line_fst, Hx.
Qed.

Lemma warnings_app (l1 l2 : list string) :
  warnings (l1 ++ l2) = (warnings l1 ++ warnings l2)%list.
Proof.
  unfold warnings. by rewrite !process_lines_snd, fmap_app, concat_app.
Qed.

Lemma warnings_cons (x : string) (l : list string) :
  warnings (x :: l) = (line_warning x ++ warnings l)%list.
Proof. unfold warnings. by rewrite !process_lines_snd. Qed.

Lemma read_fields_well_formed (line : string) :
  well_formed line →
  ∃ r, read_fields line = inr r ∧ chain_column line = Some (rec_chain r).
Proof.
  intros [[c Hc] [n Hn]]. unfold read_fields, chain_column.
  rewrite Hc, Hn. simpl. eauto.
Qed.

Lemma record_chains_well_formed (lines : list string) :
  (∀ line, line ∈ lines → Py.startswith line "ATOM" = true → well_formed line) →
  rec_chain <$> omap record_of lines =
    omap chain_column (filter (λ line, Py.startswith line "ATOM" = true) lines).
Proof.
  induction lines as [|x lines IH]; intros Hwf; [done|].
  assert (∀ line, line ∈ lines → Py.startswith line "ATOM" = true → well_formed line)
    as Hwf' by (intros line Hin; apply Hwf; by right).
  specialize (IH Hwf').
  change (omap record_of (x :: lines))
    with (match record_of x with
          | Some r => r :: omap record_of lines
          | None => omap record_of lines
          end).
  destruct (Py.startswith x "ATOM") eqn:Hx.
  - rewrite filter_cons_True by done.
    destruct (read_fields_well_formed x) as (r & Hr & Hc).
    { apply Hwf; [by left | done]. }
    assert (record_of x = Some r) as -> by (unfold record_of; by rewrite Hx, Hr).
    rewrite fmap_cons, IH. simpl. by rewrite Hc.
  - rewrite filter_cons_False by by rewrite Hx.
    assert (record_of x = None) as -> by (unfold record_of; by rewrite Hx).
    done.
Qed.

End extractor_facts.

(** ** The formatter *)

Section formatter_facts.

Opaque THREE_TO_ONE.

Lemma one_letter_step_unknown (acc : list string * gset string) (res_name : string) :
  (one_letter_step acc res_name).2 =
    if decide (THREE_TO_ONE !! res_name = None) then {[res_name]} ∪ acc.2 else acc.2.
Proof.
  unfold one_letter_step. cbn [snd].
  generalize (THREE_TO_ONE !! res_name). intros [code|].
  - rewrite decide_False by (intros [_ ?]; discriminate).
    rewrite decide_False by discriminate. reflexivity.
  - rewrite decide_True by (split; reflexivity).
    rewrite decide_True by reflexivity. reflexivity.
Qed.

Lemma one_letter_step_tokens (acc : list string * gset string) (res_name : string) :
  (one_letter_step acc res_name).1 = (acc.1 ++ [one_letter res_name])%list.
Proof. reflexivity. Qed.

Lemma one_letter_loop (names : list string) (acc : list string * gset string) :
  (foldl one_letter_step acc names).1 = (acc.1 ++ (one_letter <$> names))%list ∧
  ∀ x, x ∈ (foldl one_letter_step acc names).2 ↔
         x ∈ acc.2 ∨ (x ∈ names ∧ THREE_TO_ONE !! x = None).
Proof.
  revert acc. induction names as [|name names IH]; intros acc.
  - cbn [foldl]. rewrite fmap_nil, app_nil_r. split; [reflexivity|].
    intros x. rewrite elem_of_nil. tauto.
  - cbn [foldl]. destruct (IH (one_letter_step acc name)) as [IH1 IH2]. split.
    + rewrite IH1, one_letter_step_tokens, fmap_cons, <- app_assoc. reflexivity.
    + intros x. rewrite IH2, one_letter_step_unknown, elem_of_cons.
      destruct (decide (THREE_TO_ONE !! name = None)) as [Hn|Hn].
      * rewrite elem_of_union, elem_of_singleton.
        split; [intros [[->|?]|[? ?]]; auto | intros [?|[[->|?] ?]]; auto].
      * split; [intros [?|[? ?]]; auto | intros [?|[[->|?] ?]]; auto].
        contradiction.
Qed.

Lemma elem_of_unknown_names (sequences : gmap string (list (Z * string))) (x : string) :
  x ∈ unknown_names sequences ↔
    x ∈ full_sequence_list sequences ∧ THREE_TO_ONE !! x = None.
Proof.
  unfold unknown_names.
  destruct (one_letter_loop (full_sequence_list sequences) ([], ∅)) as [_ H].
  rewrite H. simpl. set_solver.
Qed.

(** The value of [format_sequence], the early return included: joining
    no token gives the empty string, and no unknown name gives no
    warning. *)
Lemma format_sequence_eq (sequences : gmap string (list (Z * string)))
    (code_format output_style : string) :
  format_sequence sequences code_format output_style =
    (Py.join (token_separator code_format output_style)
       (residue_tokens code_format sequences),
     if decide (code_format = "one-letter") then
       match Py.sorted Py.str_lt (elements (unknown_names sequences)) with
       | [] => []
       | unknown => [WarnUnknownResidues (Py.join ", " unknown)]
       end
     else []).
Proof.
  unfold format_sequence, residue_tokens, token_separator, unknown_names.
  destruct (full_sequence_list sequences) as [|name names] eqn:Hnames.
  - cbn [foldl snd]. rewrite elements_empty.
    repeat case_decide; reflexivity.
  - destruct (one_letter_loop (name :: names) ([], ∅)) as [H1 _].
    destruct (decide (code_format = "one-letter")) as [Hcf|Hcf].
    + destruct (foldl one_letter_step ([], ∅) (name :: names))
        as [tokens unknown] eqn:Hloop.
      cbn [fst app] in H1. subst tokens. cbn [snd].
      assert ((if decide (unknown = ∅) then []
               else [WarnUnknownResidues
                       (Py.join ", " (Py.sorted Py.str_lt (elements unknown)))]) =
              match Py.sorted Py.str_lt (elements unknown) with
              | [] => []
              | _ :: _ => [WarnUnknownResidues
                             (Py.join ", " (Py.sorted Py.str_lt (elements unknown)))]
              end) as ->.
      { case_decide as Hu.
        - subst unknown. rewrite elements_empty. reflexivity.
        - destruct (Py.sorted Py.str_lt (elements unknown)) as [|u us] eqn:Hs;
            [|reflexivity].
          exfalso. apply Hu. apply leibniz_equiv, elements_empty_inv.
          apply Permutation_nil. rewrite <- Hs.
          apply (sorted_Permutation Py.str_lt). }
      destruct (Py.sorted Py.str_lt (elements unknown));
        case_decide; reflexivity.
    + cbv beta iota zeta.
      rewrite (decide_True (P := (∅ : gset string) = ∅)) by reflexivity.
      case_decide; reflexivity.
Qed.

Lemma strictly_sorted_strings (l : list string) :
  StronglySorted (Py.not_after Py.str_lt) l → NoDup l →
  StronglySorted str_before l.
Proof.
  induction 1 as [|a l Hl IH Ha]; intros Hnd; [constructor|].
  apply NoDup_cons in Hnd as [Hnotin Hnd].
  constructor; [by apply IH|].
  rewrite Forall_forall in Ha. apply Forall_forall. intros b Hb.
  pose proof (Ha b Hb) as Hab.
  assert (a ≠ b) as Hne by (by intros ->).
  unfold Py.not_after, str_before, Py.str_lt, String.ltb in *.
  rewrite (String.compare_antisym b a) in Hab.
  destruct (String.compare a b) eqn:Hcmp; simpl in Hab; try done.
  by apply String.compare_eq_iff in Hcmp.
Qed.

Lemma full_sequence_list_empty : full_sequence_list ∅ = [].
Proof. reflexivity. Qed.

Transparent THREE_TO_ONE.

End formatter_facts.

(** ** The whole run *)

Section run_facts.

Lemma format_sequence_empty (code_format output_style : string) :
  format_sequence ∅ code_format output_style = ("", []).
Proof. unfold format_sequence. by rewrite full_sequence_list_empty. Qed.

(** A run whose source was read to its end. *)
Lemma main_read_ok (env : environment) (args : arguments) (fs : filesystem)
    (lines : list string) :
  reading env (source args) = ReadOk lines →
  ∃ err,
    let text := (format_sequence (document lines) (format args) (output_style args)).1 in
    main env args fs =
      match writing env (target args) (text +:+ newline) with
      | WriteOk =>
          {| exit_code := 0;
             disk := {| contents := <[target args := text +:+ newline]> (contents fs);
                        opened_for_writing :=
                          (opened_for_writing fs ++ [target args])%list |};
             stdout :=
               [ "Process PDB file: " +:+ source args;
                 "Output format: " +:+ format args +:+ ", Output style: "
                   +:+ output_style args;
                 "Sequence written successfully in '" +:+ target args +:+ "'-" ];
             stderr := (warnings lines ++ err ++ [])%list |}
      | OpenFails io e =>
          {| exit_code := 1; disk := fs;
             stdout :=
               [ "Process PDB file: " +:+ source args;
                 "Output format: " +:+ format args +:+ ", Output style: "
                   +:+ output_style args ];
             stderr := (warnings lines ++ err
                          ++ [target_error io (target args) e])%list |}
      | WriteFails io e flushed =>
          {| exit_code := 1;
             disk := {| contents := <[target args := flushed]> (contents fs);
                        opened_for_writing :=
                          (opened_for_writing fs ++ [target args])%list |};
             stdout :=
               [ "Process PDB file: " +:+ source args;
                 "Output format: " +:+ format args +:+ ", Output style: "
                   +:+ output_style args ];
             stderr := (warnings lines ++ err
                          ++ [target_error io (target args) e])%list |}
      end.
Proof.
  intros Hread. unfold main. rewrite Hread, parse_pdb_sequence_ok.
  destruct (decide (document lines = ∅)) as [Hempty|Hne].
  - exists [WarnNoAtoms]. rewrite Hempty, format_sequence_empty. cbn [fst].
    unfold write_output.
    by destruct (writing env (target args) ("" +:+ newline)).
  - destruct (format_sequence (document lines) (format args) (output_style args))
      as [text err] eqn:Hfmt.
    exists err. cbn [fst]. unfold write_output.
    by destruct (writing env (target args) (text +:+ newline)).
Qed.

End run_facts.

(** ** Claims about the extractor *)

(** C3.  Whatever the file holds, in the Document that
    [parse_pdb_sequence] returns the residue numbers of every chain are
    strictly increasing, and so no number occurs twice, however many
    [ATOM] lines carry the same number in that chain. *)
Theorem residue_numbers_strictly_increasing
    (path : string) (src : read_outcome) (d : gmap string (list (Z * string)))
    (c : string) (l : list (Z * string)) :
  (parse_pdb_sequence path src).1 = Some d →
  d !! c = Some l →
  StronglySorted Z.lt l.*1 ∧ NoDup l.*1.
Proof.
  intros (lines & -> & ->)%parse_pdb_sequence_Some Hl.
  rewrite document_lookup in Hl.
  destruct (sequences (final_state lines) !! c) as [l0|] eqn:Hl0; [|done].
  injection Hl as <-.
  assert (NoDup (Py.sorted Py.tuple_lt l0).*1) as Hnd.
  { rewrite (sorted_Permutation Py.tuple_lt l0).
    pose proof (ok_nodup _ (final_state_ok lines) c) as H.
    unfold chain_records in H. by rewrite Hl0 in H. }
  split; [|done].
  apply strictly_sorted_fst; [|done].
  apply (sorted_StronglySorted Py.tuple_lt).
Qed.

Lemma residue_numbers_strictly_increasing_witness :
  StronglySorted Z.lt [(2, "SER"); (7, "GLY")].*1 ∧ NoDup [(2, "SER"); (7, "GLY")].*1.
Proof.
  apply (residue_numbers_strictly_increasing
           "in.pdb" (ReadOk sample_lines) (document sample_lines) "B").
  - vm_compute. reflexivity.
  - vm_compute. reflexivity.
Defined.

(** C4.  Deduplication is first-wins.  Lines 79 to 81 append a record to
    the list of its chain exactly when the list holds no record with that
    residue number yet; and the Document holds [(n, name)] for chain [c]
    exactly when the first line of the file that carries residue [n] of
    chain [c] names it [name]. *)
Theorem deduplication_first_wins :
  (∀ (lines : list string) (r : residue_record),
     chain_records (add_residue (final_state lines) r) (rec_chain r) =
       if decide (rec_seq r ∈ (chain_records (final_state lines) (rec_chain r)).*1)
       then chain_records (final_state lines) (rec_chain r)
       else (chain_records (final_state lines) (rec_chain r)
               ++ [(rec_seq r, rec_name r)])%list) ∧
  (∀ (lines : list string) (c : string) (n : Z) (name : string),
     (n, name) ∈ default [] (document lines !! c) ↔ first_occurrence lines c n name).
Proof.
  split.
  - intros lines r. rewrite chain_records_add.
    pose proof (ok_seen _ (final_state_ok lines) (rec_chain r) (rec_seq r)) as Hseen.
    repeat case_decide; tauto.
  - intros lines c n name. rewrite <- chain_records_lines, document_lookup.
    unfold chain_records.
    destruct (sequences (final_state lines) !! c) as [l0|]; simpl; [|done].
    apply (elem_of_sorted Py.tuple_lt).
Qed.

Lemma deduplication_first_wins_witness :
  first_occurrence sample_lines "B" 2 "SER".
Proof.
  apply (proj2 deduplication_first_wins sample_lines "B" 2 "SER").
  apply (bool_decide_unpack _). vm_compute. exact I.
Defined.

(** C5, as the code has it.  An [ATOM] line that has no column 22, or
    whose columns 23 to 26 hold no integer, makes the extractor print one
    warning that quotes the line, and nothing else: the Document is the one
    of the file without that line, and the other warnings are unchanged.
    Being too short is no reason of its own, as the line cut inside the
    number field shows below. *)
Theorem malformed_line_skipped
    (path : string) (before : list string) (bad : string) (after : list string) :
  Py.startswith bad "ATOM" = true →
  Py.index 21 bad = None ∨ Py.int (Py.strip (Py.slice 22 26 bad)) = None →
  let e := match Py.index 21 bad with
           | None => IndexError
           | Some _ => ValueError (Py.strip (Py.slice 22 26 bad))
           end in
  parse_pdb_sequence path (ReadOk (before ++ bad :: after)) =
    (Some (document (before ++ after)),
     (warnings before ++ WarnSkipLine (Py.strip bad) e :: warnings after)%list) ∧
  parse_pdb_sequence path (ReadOk (before ++ after)) =
    (Some (document (before ++ after)), (warnings before ++ warnings after)%list).
Proof.
  intros Hatom Hbad e.
  assert (read_fields bad = inl e) as Hfields.
  { unfold read_fields, e. destruct (Py.index 21 bad) as [ch|]; [|done].
    destruct Hbad as [?| ->]; done. }
  rewrite !parse_pdb_sequence_ok. split.
  - f_equal.
    + unfold document. rewrite record_of_None_skip; [done|].
      unfold record_of. by rewrite Hatom, Hfields.
    + rewrite warnings_app, warnings_cons. unfold line_warning.
      by rewrite Hatom, Hfields.
  - by rewrite warnings_app.
Qed.

Lemma malformed_line_skipped_witness :
  Py.startswith bad_number_line "ATOM" = true ∧
  Py.int (Py.strip (Py.slice 22 26 bad_number_line)) = None ∧
  parse_pdb_sequence "in.pdb" (ReadOk (sample_lines ++ bad_number_line :: scenario_lines)) =
    (Some (document (sample_lines ++ scenario_lines)),
     (warnings sample_lines
        ++ WarnSkipLine (Py.strip bad_number_line) (ValueError "1A")
        :: warnings scenario_lines)%list).
Proof.
  split; [vm_compute; reflexivity|]. split; [vm_compute; reflexivity|].
  refine (proj1 (malformed_line_skipped
                   "in.pdb" sample_lines bad_number_line scenario_lines _ _)).
  - vm_compute. reflexivity.
  - right. vm_compute. reflexivity.
Defined.

(** C5 as the specification words it does not hold.  A line that is cut
    inside columns 23 to 26 is too short, yet the slices raise nothing:
    what is left of the number field is read as residue 12, no warning is
    printed, and the Document is not the one of the file without the line. *)
Lemma truncated_line_is_accepted :
  Py.startswith truncated_line "ATOM" = true ∧
  (String.length truncated_line < 27)%nat ∧
  warnings [truncated_line] = [] ∧
  document [truncated_line] = {[ "A" := [(12, "ALA")] ]} ∧
  document ([] ++ truncated_line :: []) ≠ document ([] ++ []).
Proof.
  split; [vm_compute; reflexivity|].
  split; [apply (bool_decide_unpack _); vm_compute; exact I|].
  split; [vm_compute; reflexivity|].
  split; [vm_compute; reflexivity|].
  intros H. apply (f_equal (λ m, m !! "A")) in H. vm_compute in H. discriminate H.
Qed.

(** C6.  For a file whose [ATOM] lines are well formed, the chain keys of
    the Document are exactly the chain identifiers found in column 22 of
    the lines that begin with [ATOM], a blank column counting as [A]. *)
Theorem chain_keys_are_atom_chains
    (path : string) (lines : list string)
    (d : gmap string (list (Z * string))) (w : list diagnostic) :
  (∀ line, line ∈ lines → Py.startswith line "ATOM" = true → well_formed line) →
  parse_pdb_sequence path (ReadOk lines) = (Some d, w) →
  dom d =
    list_to_set
      (omap chain_column (filter (λ line, Py.startswith line "ATOM" = true) lines)).
Proof.
  intros Hwf. rewrite parse_pdb_sequence_ok. intros [= <- _].
  by rewrite dom_document, dom_final_state, record_chains_well_formed.
Qed.

Lemma chain_keys_are_atom_chains_witness :
  dom (document sample_lines) =
    list_to_set
      (omap chain_column
         (filter (λ line, Py.startswith line "ATOM" = true) sample_lines)).
Proof.
  apply (chain_keys_are_atom_chains "in.pdb" sample_lines
           (document sample_lines) (warnings sample_lines)).
  - apply (proj1 (Forall_forall
                    (λ line, Py.startswith line "ATOM" = true → well_formed line)
                    sample_lines)).
    apply (bool_decide_unpack _). vm_compute. exact I.
  - apply parse_pdb_sequence_ok.
Defined.

(** C10.  No chain key ever maps to an empty list: neither in [sequences]
    after any number of lines was read, nor in the Document that a
    successful extraction returns. *)
Theorem chains_are_never_empty :
  (∀ (lines : list string) (c : string),
     sequences (final_state lines) !! c ≠ Some []) ∧
  (∀ (path : string) (src : read_outcome) (d : gmap string (list (Z * string)))
     (c : string),
     (parse_pdb_sequence path src).1 = Some d → d !! c ≠ Some []).
Proof.
  split.
  - intros lines. apply (ok_nonempty _ (final_state_ok lines)).
  - intros path src d c (lines & -> & ->)%parse_pdb_sequence_Some.
    rewrite document_lookup.
    destruct (sequences (final_state lines) !! c) as [l0|] eqn:Hl0; [|done].
    simpl. intros [= E].
    assert (l0 = []) as ->.
    { apply Permutation_nil. rewrite <- E.
      apply (sorted_Permutation Py.tuple_lt). }
    by apply (ok_nonempty _ (final_state_ok lines) c).
Qed.

Lemma chains_are_never_empty_witness :
  document sample_lines !! "A" ≠ Some [].
Proof.
  apply (proj2 chains_are_never_empty "in.pdb" (ReadOk sample_lines)).
  vm_compute. reflexivity.
Defined.

(** ** Claims about the formatter *)

(** C1.  The scenario of the specification.  The three lines give the
    Document [{A: [(5,ALA),(6,GLY)], B: [(1,SER)]}]; chain [A] comes before
    chain [B] and residue 5 before residue 6, so the output is [AGS] in one
    letter on one line, [ALA GLY SER] in three letters on one line, and
    [A], [G], [S] on a line each in one letter on several lines. *)
Theorem scenario_outputs :
  document scenario_lines = scenario_document ∧
  format_sequence scenario_document "one-letter" "single-line" = ("AGS", []) ∧
  format_sequence scenario_document "three-letter" "single-line" = ("ALA GLY SER", []) ∧
  format_sequence scenario_document "one-letter" "multi-line" =
    ("A" +:+ newline +:+ "G" +:+ newline +:+ "S", []).
Proof. repeat split; vm_compute; reflexivity. Qed.

(** C2.  The table holds the twenty standard residues and nothing else.
    In the one-letter format every residue name is rendered by its code in
    the table, or by [X] when the table does not know it; and the
    diagnostic stream receives no warning when every name is known, and
    otherwise one warning, which lists the unknown names once each, in
    increasing order, separated by a comma and a space. *)
Theorem one_letter_formatting :
  (∀ name code : string,
     THREE_TO_ONE !! name = Some code ↔
     (name, code) ∈
       [ ("ALA", "A"); ("ARG", "R"); ("ASN", "N"); ("ASP", "D"); ("CYS", "C");
         ("GLU", "E"); ("GLN", "Q"); ("GLY", "G"); ("HIS", "H"); ("ILE", "I");
         ("LEU", "L"); ("LYS", "K"); ("MET", "M"); ("PHE", "F"); ("PRO", "P");
         ("SER", "S"); ("THR", "T"); ("TRP", "W"); ("TYR", "Y"); ("VAL", "V") ]) ∧
  (∀ (sequences : gmap string (list (Z * string))) (output_style : string),
     ∃ unknown : list string,
       (∀ x, x ∈ unknown ↔
             x ∈ full_sequence_list sequences ∧ THREE_TO_ONE !! x = None) ∧
       StronglySorted str_before unknown ∧
       format_sequence sequences "one-letter" output_style =
         (Py.join (if decide (output_style = "single-line") then "" else newline)
            ((λ name, match THREE_TO_ONE !! name with
                      | Some code => code
                      | None => "X"
                      end) <$> full_sequence_list sequences),
          match unknown with
          | [] => []
          | _ :: _ => [WarnUnknownResidues (Py.join ", " unknown)]
          end)).
Proof.
  split.
  - intros name code. unfold THREE_TO_ONE. split.
    + apply elem_of_list_to_map_2.
    + apply elem_of_list_to_map_1.
      apply (bool_decide_unpack _). vm_compute. exact I.
  - intros sequences output_style.
    exists (Py.sorted Py.str_lt (elements (unknown_names sequences))).
    split; [|split].
    + intros x.
      rewrite (elem_of_sorted Py.str_lt), elem_of_elements.
      apply elem_of_unknown_names.
    + apply strictly_sorted_strings.
      * apply (sorted_StronglySorted Py.str_lt).
      * rewrite (sorted_Permutation Py.str_lt). apply NoDup_elements.
    + rewrite format_sequence_eq. unfold residue_tokens, token_separator.
      rewrite !(decide_True (P := "one-letter" = "one-letter")) by reflexivity.
      destruct (Py.sorted Py.str_lt (elements (unknown_names sequences)));
        reflexivity.
Qed.

(** C7.  The tokens are joined by nothing in one letter on one line, by
    one space in three letters on one line, and by a newline on several
    lines whatever the code format.  This holds for every Document, the
    empty one included, for which there is no token to join. *)
Theorem join_separators (sequences : gmap string (list (Z * string))) :
  (format_sequence sequences "one-letter" "single-line").1 =
    Py.join "" (residue_tokens "one-letter" sequences) ∧
  (format_sequence sequences "three-letter" "single-line").1 =
    Py.join " " (residue_tokens "three-letter" sequences) ∧
  (∀ code_format : string,
     (format_sequence sequences code_format "multi-line").1 =
       Py.join newline (residue_tokens code_format sequences)).
Proof.
  split; [|split]; intros; rewrite format_sequence_eq; cbn [fst];
    unfold token_separator.
  - reflexivity.
  - reflexivity.
  - rewrite (decide_False (P := "multi-line" = "single-line")) by discriminate.
    reflexivity.
Qed.

(** ** Claims about the whole run *)

(** C8.  When the run succeeds, the source was read to its end and the
    target file holds the text of the formatter followed by one newline;
    the other files are as they were.  When the extraction gave no residue
    the text is empty and the target file holds one newline. *)
Theorem target_file_content (env : environment) (args : arguments) (fs : filesystem) :
  exit_code (main env args fs) = 0 →
  ∃ lines,
    reading env (source args) = ReadOk lines ∧
    let text := (format_sequence (document lines) (format args) (output_style args)).1 in
    contents (disk (main env args fs)) !! target args = Some (text +:+ newline) ∧
    (∀ path, path ≠ target args →
             contents (disk (main env args fs)) !! path = contents fs !! path) ∧
    (document lines = ∅ →
     text = "" ∧ contents (disk (main env args fs)) !! target args = Some newline).
Proof.
  intros Hexit.
  destruct (reading env (source args)) as [| |lines] eqn:Hread.
  - unfold main in Hexit. rewrite Hread in Hexit. discriminate.
  - unfold main in Hexit. rewrite Hread in Hexit. discriminate.
  - exists lines. split; [reflexivity|].
    destruct (main_read_ok env args fs lines Hread) as [err Hmain].
    cbv zeta in Hmain. cbv zeta. rewrite Hmain in Hexit |- *. clear Hmain.
    destruct (writing env (target args) _); [|discriminate..].
    cbn [disk contents]. split; [|split].
    + apply lookup_insert_eq.
    + intros path Hpath. by apply lookup_insert_ne.
    + intros Hempty. rewrite Hempty, format_sequence_empty. cbn [fst].
      split; [reflexivity|]. apply lookup_insert_eq.
Qed.

Lemma target_file_content_witness :
  exit_code (main sample_environment sample_arguments empty_disk) = 0 ∧
  ∃ lines,
    reading sample_environment "in.pdb" = ReadOk lines ∧
    contents (disk (main sample_environment sample_arguments empty_disk)) !! "out.txt" =
      Some ((format_sequence (document lines) "one-letter" "single-line").1 +:+ newline).
Proof.
  split; [vm_compute; reflexivity|].
  destruct (target_file_content sample_environment sample_arguments empty_disk)
    as (lines & Hread & Hcontent & _).
  - vm_compute. reflexivity.
  - exists lines. split; [exact Hread | exact Hcontent].
Defined.

(** C9.  When the source file cannot be opened, or cannot be read to its
    end, the run ends with exit code 1, no file was opened for writing and
    no file changed, and the last message on the diagnostic stream is the
    error about the source file. *)
Theorem unreadable_source_is_fatal (env : environment) (args : arguments) (fs : filesystem) :
  (∀ lines, reading env (source args) ≠ ReadOk lines) →
  exit_code (main env args fs) = 1 ∧
  disk (main env args fs) = fs ∧
  ∃ earlier message,
    stderr (main env args fs) = (earlier ++ [message])%list ∧
    (message = ErrSourceNotFound (source args) ∨
     ∃ e, message = ErrSourceRead (source args) e).
Proof.
  intros Hread. unfold main.
  destruct (reading env (source args)) as [|delivered e|lines] eqn:Hsrc.
  - cbn. split; [reflexivity|]. split; [reflexivity|].
    exists [], (ErrSourceNotFound (source args)). split; [reflexivity|]. by left.
  - cbn [parse_pdb_sequence]. cbn [exit_code disk stderr].
    split; [reflexivity|]. split; [reflexivity|].
    exists (process_lines initial_state delivered).2, (ErrSourceRead (source args) e).
    split; [reflexivity|]. right. by exists e.
  - by destruct (Hread lines).
Qed.

Lemma unreadable_source_is_fatal_witness :
  exit_code (main sample_environment missing_arguments empty_disk) = 1 ∧
  disk (main sample_environment missing_arguments empty_disk) = empty_disk.
Proof.
  destruct (unreadable_source_is_fatal sample_environment missing_arguments empty_disk)
    as (Hexit & Hdisk & _).
  - intros lines. vm_compute. discriminate.
  - split; [exact Hexit | exact Hdisk].
Defined.

(** * Further properties of the code *)

(** ** The extractor, line by line *)

Section extractor_lines.

Lemma read_fields_inr (line : string) :
  well_formed line ↔ ∃ r, read_fields line = inr r.
Proof.
  unfold well_formed, read_fields. split.
  - intros [[c ->] [n ->]]. eauto.
  - intros [r Hr]. destruct (Py.index 21 line) as [c|]; [|done].
    destruct (Py.int (Py.strip (Py.slice 22 26 line))) as [n|]; [|done].
    split; eauto.
Qed.

Lemma read_fields_inl (line : string) :
  ¬ well_formed line → read_fields line = inl (skip_error line).
Proof.
  unfold well_formed, read_fields, skip_error. intros Hbad.
  destruct (Py.index 21 line) as [c|]; [|done].
  destruct (Py.int (Py.strip (Py.slice 22 26 line))) as [n|] eqn:Hn; [|done].
  destruct Hbad. split; eauto.
Qed.

Lemma record_of_readable (line : string) :
  is_Some (record_of line) ↔ readable line.
Proof.
  unfold record_of, readable.
  destruct (Py.startswith line "ATOM").
  - rewrite read_fields_inr. split.
    + intros [r Hr]. split; [done|]. destruct (read_fields line); [done|eauto].
    + intros [_ [r ->]]. eauto.
  - split; [by intros [? ?] | by intros [? _]].
Qed.

Lemma record_of_None (line : string) :
  record_of line = None ↔ ¬ readable line.
Proof. by rewrite <- record_of_readable, eq_None_not_Some. Qed.

Lemma process_lines_records (st : parse_state) (lines : list string) :
  (process_lines st lines).1 = foldl add_residue st (records lines).
Proof.
  revert st. induction lines as [|x lines IH]; intros st; [done|].
  rewrite process_lines_cons. cbn [fst]. rewrite IH, process_line_fst.
  unfold records. cbn [omap list_omap]. by destruct (record_of x).
Qed.

Lemma records_filter_readable (lines : list string) :
  records (filter readable lines) = records lines.
Proof.
  unfold records. induction lines as [|x lines IH]; [done|].
  destruct (decide (readable x)) as [Hx|Hx].
  - rewrite filter_cons_True by done. cbn [omap list_omap]. by rewrite IH.
  - rewrite filter_cons_False by done. cbn [omap list_omap].
    apply record_of_None in Hx. by rewrite Hx.
Qed.

Lemma line_warning_skipped (line : string) :
  line_warning line =
    if decide (skipped line) then [WarnSkipLine (Py.strip line) (skip_error line)]
    else [].
Proof.
  unfold line_warning.
  destruct (Py.startswith line "ATOM") eqn:Hatom.
  - destruct (decide (well_formed line)) as [Hwf|Hwf].
    + rewrite decide_False by (intros [_ ?]; done).
      apply read_fields_inr in Hwf as [r ->]. done.
    + rewrite decide_True by done. by rewrite read_fields_inl.
  - rewrite decide_False; [done|]. intros [? _]. congruence.
Qed.

Lemma index_None_length (i : nat) (s : string) :
  Py.index i s = None ↔ (String.length s ≤ i)%nat.
Proof.
  unfold Py.index. revert i. induction s as [|a s IH]; intros i.
  - destruct i; simpl; split; auto with lia.
  - destruct i as [|i]; simpl.
    + split; [done | lia].
    + rewrite IH. lia.
Qed.

End extractor_lines.

(** X1.  Only the readable [ATOM] lines count: the Document of a file is
    the Document of the file reduced to its [ATOM] lines that have a
    column 22 and an integer in columns 23 to 26.  Lines of any other kind
    ([HETATM], [HEADER], ...) and skipped lines leave no trace in it. *)
Theorem document_of_readable_lines (lines : list string) :
  document (filter readable lines) = document lines.
Proof.
  unfold document. by rewrite !process_lines_records, records_filter_readable.
Qed.

(** X2.  The extractor prints one warning for each [ATOM] line it skips,
    in the order of the file, and nothing for any other line.  The warning
    quotes the stripped line and names the exception: [IndexError] for a
    line without column 22, [ValueError] with the stripped number field
    otherwise. *)
Theorem warnings_are_the_skipped_lines (lines : list string) :
  warnings lines =
    (λ line, WarnSkipLine (Py.strip line) (skip_error line)) <$> filter skipped lines.
Proof.
  unfold warnings. rewrite process_lines_snd.
  induction lines as [|x lines IH]; [done|].
  rewrite fmap_cons, concat_cons, IH, line_warning_skipped.
  destruct (decide (skipped x)).
  - by rewrite filter_cons_True.
  - by rewrite filter_cons_False.
Qed.

(** X3.  An [ATOM] line raises [IndexError] exactly when it has at most 21
    characters, its line terminator included; a longer line is skipped
    exactly when columns 23 to 26, stripped, are no integer literal. *)
Theorem skipped_line_errors (line : string) :
  (read_fields line = inl IndexError ↔ (String.length line ≤ 21)%nat) ∧
  (∀ literal, read_fields line = inl (ValueError literal) ↔
     (21 < String.length line)%nat ∧
     literal = Py.strip (Py.slice 22 26 line) ∧ Py.int literal = None).
Proof.
  rewrite <- index_None_length. unfold read_fields.
  destruct (Py.index 21 line) as [c|] eqn:Hc.
  - assert (21 < String.length line)%nat as Hlen.
    { destruct (decide (String.length line ≤ 21)%nat) as [Hle|]; [|lia].
      apply index_None_length in Hle. congruence. }
    split.
    + destruct (Py.int _); split; done.
    + intros literal.
      destruct (Py.int (Py.strip (Py.slice 22 26 line))) as [n|] eqn:Hn.
      * split; [done|]. intros (_ & -> & ?). congruence.
      * split; [by intros [= <-] | by intros (_ & -> & _)].
  - split; [done|]. intros literal. split; [done|].
    intros [Hlen _]. apply index_None_length in Hc. lia.
Qed.

(** ** The Document and the first line of each residue *)

Section first_records.

Lemma first_occurrence_cons (x : string) (lines : list string)
    (c : string) (n : Z) (name : string) :
  first_occurrence (x :: lines) c n name ↔
    record_of x = Some {| rec_chain := c; rec_seq := n; rec_name := name |} ∨
    ((∀ r, record_of x = Some r → ¬ carries c n r) ∧
     first_occurrence lines c n name).
Proof.
  split.
  - intros (before & line & after & Heq & Hrec & Hfirst).
    destruct before as [|b before]; injection Heq as Hx Hl.
    { subst line after. by left. }
    subst b lines. right. split.
    + intros r Hr. apply (Hfirst x r); [by left | done].
    + exists before, line, after. split; [done|]. split; [done|].
      intros line' r Hin. apply Hfirst. by right.
  - intros [Hx | [Hx (before & line & after & -> & Hrec & Hfirst)]].
    + exists [], x, lines. split; [done|]. split; [done|].
      intros line' r Hin. by apply elem_of_nil in Hin.
    + exists (x :: before), line, after. split; [done|]. split; [done|].
      intros line' r [->|Hin]%elem_of_cons; [apply Hx | by apply Hfirst].
Qed.

Lemma first_record_cons (x : string) (lines : list string) (c : string) (n : Z) :
  first_record (x :: lines) c n =
    match record_of x with
    | Some r => if decide (carries c n r) then Some r else first_record lines c n
    | None => first_record lines c n
    end.
Proof.
  unfold first_record, records. cbn [omap list_omap].
  destruct (record_of x) as [r|]; [|done].
  case_decide.
  - by rewrite filter_cons_True.
  - by rewrite filter_cons_False.
Qed.

Lemma first_occurrence_first_record (lines : list string)
    (c : string) (n : Z) (name : string) :
  first_occurrence lines c n name ↔
    ∃ r, first_record lines c n = Some r ∧ rec_name r = name.
Proof.
  induction lines as [|x lines IH].
  - split.
    + intros (before & line & after & Heq & _). by destruct before.
    + by intros (r & Hr & _).
  - rewrite first_occurrence_cons, IH, first_record_cons.
    destruct (record_of x) as [[rc rn rname]|].
    + case_decide as Hc.
      * destruct Hc as [Hc Hn]. simpl in Hc, Hn. subst rc rn. split.
        -- intros [[= ->] | [Hno _]].
           ++ eauto.
           ++ destruct (Hno _ eq_refl). by split.
        -- intros (r & [= <-] & Hname). left. simpl in Hname. by subst.
      * split.
        -- intros [[= -> -> ->] | [_ H]]; [|done]. destruct Hc. by split.
        -- intros H. right. split; [|done]. by intros r [= <-].
    + split.
      * by intros [? | [_ H]].
      * intros H. right. split; [|done]. by intros r.
Qed.

Lemma first_record_None (lines : list string) (c : string) (n : Z) :
  first_record lines c n = None ↔ ∀ r, r ∈ records lines → ¬ carries c n r.
Proof.
  unfold first_record. induction (records lines) as [|r rs IH].
  - split; [|done]. intros _ r Hin. by apply elem_of_nil in Hin.
  - destruct (decide (carries c n r)) as [Hr|Hr].
    + rewrite filter_cons_True by done. split; [done|].
      intros H. destruct (H r); [by left | done].
    + rewrite filter_cons_False by done. rewrite IH. split.
      * intros H r' [->|Hin]%elem_of_cons; [done | by apply H].
      * intros H r' Hin. apply H. by right.
Qed.

Lemma document_first_record (lines : list string) (c : string) (n : Z) (name : string) :
  (n, name) ∈ default [] (document lines !! c) ↔
    ∃ r, first_record lines c n = Some r ∧ rec_name r = name.
Proof.
  rewrite <- first_occurrence_first_record, <- chain_records_lines, document_lookup.
  unfold chain_records.
  destruct (sequences (final_state lines) !! c) as [l0|]; simpl; [|done].
  apply (elem_of_sorted Py.tuple_lt).
Qed.

(** Two files with the same first records have the same Document. *)
Lemma document_ext (l1 l2 : list string) :
  (∀ c n, first_record l1 c n = first_record l2 c n) → document l1 = document l2.
Proof.
  intros Hfirst.
  assert (∀ c x, x ∈ default [] (document l1 !! c) ↔ x ∈ default [] (document l2 !! c))
    as Hmem.
  { intros c [n name]. by rewrite !document_first_record, Hfirst. }
  assert (∀ lines c l, document lines !! c = Some l →
            l ≠ [] ∧ NoDup l ∧ Sorted (Py.not_after Py.tuple_lt) l) as Hshape.
  { intros lines c l. rewrite document_lookup.
    destruct (sequences (final_state lines) !! c) as [l0|] eqn:Hl0; [|done].
    intros [= <-]. split; [|split].
    - intros E. apply (ok_nonempty _ (final_state_ok lines) c).
      rewrite Hl0. f_equal. apply Permutation_nil. rewrite <- E.
      apply (sorted_Permutation Py.tuple_lt).
    - rewrite (sorted_Permutation Py.tuple_lt).
      apply (NoDup_fmap_1 fst).
      pose proof (ok_nodup _ (final_state_ok lines) c) as H.
      unfold chain_records in H. by rewrite Hl0 in H.
    - apply (sorted_Sorted Py.tuple_lt). }
  apply map_eq. intros c. specialize (Hmem c).
  destruct (document l1 !! c) as [a|] eqn:Ha, (document l2 !! c) as [b|] eqn:Hb.
  - f_equal. simpl in Hmem.
    destruct (Hshape _ _ _ Ha) as (_ & Hnda & Hsa).
    destruct (Hshape _ _ _ Hb) as (_ & Hndb & Hsb).
    apply (Sorted_unique (Py.not_after Py.tuple_lt)); [done..|].
    by apply NoDup_Permutation.
  - destruct (Hshape _ _ _ Ha) as (Hne & _). destruct a as [|x a]; [done|].
    simpl in Hmem. assert (x ∈ []) as H by (apply Hmem; by left).
    by apply elem_of_nil in H.
  - destruct (Hshape _ _ _ Hb) as (Hne & _). destruct b as [|x b]; [done|].
    simpl in Hmem. assert (x ∈ []) as H by (apply Hmem; by left).
    by apply elem_of_nil in H.
  - done.
Qed.

Lemma first_record_app (l1 l2 : list string) (c : string) (n : Z) :
  first_record (l1 ++ l2) c n =
    match first_record l1 c n with
    | Some r => Some r
    | None => first_record l2 c n
    end.
Proof.
  unfold first_record, records. rewrite omap_app, filter_app.
  by destruct (filter (carries c n) (omap record_of l1)).
Qed.

End first_records.

Lemma first_record_Some (lines : list string) (c : string) (n : Z) (r : residue_record) :
  first_record lines c n = Some r → r ∈ records lines ∧ carries c n r.
Proof.
  unfold first_record. intros H%head_Some_elem_of.
  by apply list_elem_of_filter in H as [? ?].
Qed.

Lemma first_record_is_Some (lines : list string) (c : string) (n : Z) :
  is_Some (first_record lines c n) ↔ ∃ r, r ∈ records lines ∧ carries c n r.
Proof.
  split.
  - intros [r Hr]. exists r. by apply first_record_Some.
  - intros (r & Hin & Hr). destruct (first_record lines c n) eqn:E; [done|].
    by destruct (proj1 (first_record_None lines c n) E r).
Qed.

(** X4.  The Document is decided by the first line of each residue: two
    files in which every residue, taken by chain and number, has the same
    first record have the same Document, whatever the order of their lines
    and however often a residue is repeated. *)
Theorem document_determined_by_first_lines (l1 l2 : list string) :
  Forall (λ r, first_record l1 (rec_chain r) (rec_seq r) =
               first_record l2 (rec_chain r) (rec_seq r))
         (records l1 ++ records l2) →
  document l1 = document l2.
Proof.
  rewrite Forall_forall. intros Hall. apply document_ext. intros c n.
  destruct (first_record l1 c n) as [r|] eqn:H1.
  - destruct (first_record_Some _ _ _ _ H1) as [Hin [<- <-]].
    rewrite <- H1. apply Hall, elem_of_app. by left.
  - destruct (first_record l2 c n) as [r|] eqn:H2; [|done].
    destruct (first_record_Some _ _ _ _ H2) as [Hin [<- <-]].
    rewrite <- H1, <- H2. apply Hall, elem_of_app. by right.
Qed.

Lemma document_determined_by_first_lines_witness :
  document sample_lines = document sample_lines_reordered.
Proof.
  apply document_determined_by_first_lines.
  apply (bool_decide_unpack _). vm_compute. exact I.
Defined.

(** X5.  Two neighbouring lines that do not carry the same residue of the
    same chain can change places without changing the Document. *)
Theorem swap_lines_of_different_residues
    (before : list string) (x y : string) (after : list string) :
  ¬ same_residue x y →
  document (before ++ x :: y :: after) = document (before ++ y :: x :: after).
Proof.
  intros Hdiff. apply document_ext. intros c n.
  rewrite !first_record_app. destruct (first_record before c n); [done|].
  rewrite !first_record_cons. unfold same_residue in Hdiff.
  destruct (record_of x) as [rx|], (record_of y) as [ry|]; try done.
  destruct (decide (carries c n rx)) as [[Hcx Hnx]|], (decide (carries c n ry))
    as [[Hcy Hny]|]; try done.
  destruct Hdiff. split; congruence.
Qed.

Lemma swap_lines_of_different_residues_witness :
  document ([short_line] ++ scenario_lines !!! 0%nat :: scenario_lines !!! 1%nat
              :: drop 2 scenario_lines) =
  document ([short_line] ++ scenario_lines !!! 1%nat :: scenario_lines !!! 0%nat
              :: drop 2 scenario_lines).
Proof.
  apply swap_lines_of_different_residues.
  apply (bool_decide_unpack _). vm_compute. exact I.
Defined.

(** X6.  Lines read after the first lines of their residues change
    nothing: when every residue carried by the lines of [later] is carried
    by a line of [lines] already, appending [later] leaves the Document as
    it is.  (A second model of the same chains is such an appendix.) *)
Theorem repeated_residues_are_ignored (lines later : list string) :
  Forall (λ r, Exists (carries (rec_chain r) (rec_seq r)) (records lines))
         (records later) →
  document (lines ++ later) = document lines.
Proof.
  rewrite Forall_forall. intros Hall. apply document_ext. intros c n.
  rewrite first_record_app.
  destruct (first_record lines c n) as [r|] eqn:H1; [done|].
  destruct (first_record later c n) as [r|] eqn:H2; [|done].
  destruct (first_record_Some _ _ _ _ H2) as [Hin [<- <-]].
  apply Hall, Exists_exists in Hin as (r' & Hin' & Hr').
  by destruct (proj1 (first_record_None _ _ _) H1 r').
Qed.

Lemma repeated_residues_are_ignored_witness :
  document (sample_lines ++ sample_lines) = document sample_lines.
Proof.
  apply repeated_residues_are_ignored.
  apply (bool_decide_unpack _). vm_compute. exact I.
Defined.

(** X7.  No residue is lost and none is invented: the residue numbers of
    chain [c] in the Document are exactly the numbers that the readable
    [ATOM] lines carry for chain [c], so the chain has as many residues as
    these lines have distinct numbers. *)
Theorem document_numbers_are_carried_numbers (lines : list string) (c : string) :
  (∀ n, n ∈ (default [] (document lines !! c)).*1 ↔ n ∈ carried_numbers lines c) ∧
  length (default [] (document lines !! c)) = size (carried_numbers lines c).
Proof.
  assert (∀ n, n ∈ (default [] (document lines !! c)).*1 ↔ n ∈ carried_numbers lines c)
    as Hmem.
  { intros n. unfold carried_numbers.
    rewrite elem_of_list_to_set, !list_elem_of_fmap. split.
    - intros ([n' name] & -> & Hin). simpl.
      apply document_first_record in Hin as (r & Hr & _).
      apply first_record_Some in Hr as [Hin [Hc Hn]].
      exists r. split; [done|]. by apply list_elem_of_filter.
    - intros (r & -> & [Hc Hin]%list_elem_of_filter).
      destruct (proj2 (first_record_is_Some lines c (rec_seq r))) as [r' Hr'].
      { by exists r. }
      exists (rec_seq r, rec_name r'). split; [done|].
      apply document_first_record. by exists r'. }
  split; [done|].
  assert (NoDup (default [] (document lines !! c)).*1) as Hnd.
  { rewrite document_lookup.
    destruct (sequences (final_state lines) !! c) as [l0|] eqn:Hl0; [|constructor].
    simpl. rewrite (sorted_Permutation Py.tuple_lt).
    pose proof (ok_nodup _ (final_state_ok lines) c) as H.
    unfold chain_records in H. by rewrite Hl0 in H. }
  rewrite <- (length_fmap fst), <- (size_list_to_set (C := gset Z)) by done.
  f_equal. apply set_eq. intros n. by rewrite elem_of_list_to_set.
Qed.

(** ** The fields of a record *)

Section field_bounds.

Lemma length_lstrip (s : string) : (String.length (Py.lstrip s) ≤ String.length s)%nat.
Proof.
  induction s as [|a s IH]; [done|]. cbn [Py.lstrip].
  destruct (Py.isspace a); cbn [String.length]; lia.
Qed.

Lemma length_rstrip (s : string) : (String.length (Py.rstrip s) ≤ String.length s)%nat.
Proof.
  induction s as [|a s IH]; [done|]. cbn [Py.rstrip].
  destruct (Py.rstrip s) as [|b r].
  - destruct (Py.isspace a); cbn [String.length]; lia.
  - cbn [String.length] in *. lia.
Qed.

Lemma length_strip (s : string) : (String.length (Py.strip s) ≤ String.length s)%nat.
Proof.
  unfold Py.strip. pose proof (length_rstrip (Py.lstrip s)).
  pose proof (length_lstrip s). lia.
Qed.

Lemma length_slice (i j : nat) (s : string) :
  (String.length (Py.slice i j s) ≤ j - i)%nat.
Proof.
  unfold Py.slice. generalize (j - i)%nat as m. revert i.
  induction s as [|a s IH]; intros i m.
  - destruct i, m; cbn; lia.
  - destruct i as [|i].
    + destruct m as [|m]; cbn [substring String.length]; [lia|].
      specialize (IH 0%nat m). lia.
    + cbn [substring]. apply IH.
Qed.

Lemma strip_single (a : ascii) :
  Py.strip (String a "") = if Py.isspace a then "" else String a "".
Proof.
  unfold Py.strip. cbn [Py.lstrip].
  destruct (Py.isspace a) eqn:E; cbn [Py.rstrip]; [done|]. by rewrite E.
Qed.

Lemma digit_bound (a : ascii) (d : Z) : Py.digit a = Some d → 0 ≤ d ≤ 9.
Proof. unfold Py.digit. case_decide; [|done]. intros [= <-]. lia. Qed.

Lemma digits_bound (s : string) (acc : Z) (prev : bool) (n : Z) :
  0 ≤ acc → Py.digits acc prev s = Some n →
  0 ≤ n < (acc + 1) * 10 ^ Z.of_nat (String.length s).
Proof.
  revert acc prev. induction s as [|a s IH]; intros acc prev Hacc.
  - cbn [Py.digits String.length]. destruct prev; [|done]. intros [= <-]. lia.
  - cbn [Py.digits String.length].
    rewrite Nat2Z.inj_succ, Z.pow_succ_r by lia.
    assert (0 < 10 ^ Z.of_nat (String.length s)) as Hpow by (apply Z.pow_pos_nonneg; lia).
    destruct (Py.digit a) as [d|] eqn:Hd.
    + apply digit_bound in Hd. intros Hn. apply IH in Hn; [nia | lia].
    + destruct (Ascii.eqb a "_" && prev)%bool; [|done].
      intros Hn. apply IH in Hn; [nia | lia].
Qed.

Lemma int_unfold (s : string) :
  Py.int s =
    match s with
    | String a r =>
        if Ascii.eqb a "+" then Py.digits 0 false r
        else if Ascii.eqb a "-" then Z.opp <$> Py.digits 0 false r
        else Py.digits 0 false s
    | EmptyString => None
    end.
Proof.
  destruct s as [|a r]; [done|].
  destruct a as [[] [] [] [] [] [] [] []]; reflexivity.
Qed.

Lemma int_bound (s : string) (n : Z) :
  (String.length s ≤ 4)%nat → Py.int s = Some n → -999 ≤ n ≤ 9999.
Proof.
  rewrite int_unfold. destruct s as [|a r]; [done|]. cbn [String.length]. intros Hlen.
  assert (10 ^ Z.of_nat (String.length r) ≤ 10 ^ 3) as Hpow
    by (apply Z.pow_le_mono_r; lia).
  destruct (Ascii.eqb a "+"); [|destruct (Ascii.eqb a "-")].
  - intros Hn%digits_bound; lia.
  - destruct (Py.digits 0 false r) as [m|] eqn:Hm; [|done].
    intros [= <-]. apply digits_bound in Hm; lia.
  - intros Hn%digits_bound; [|lia]. cbn [String.length] in Hn.
    rewrite Nat2Z.inj_succ, Z.pow_succ_r in Hn by lia. lia.
Qed.

Lemma read_fields_shape (line : string) (r : residue_record) :
  read_fields line = inr r →
  (∃ a, rec_chain r = String a "" ∧ Py.isspace a = false) ∧
  (String.length (rec_name r) ≤ 3)%nat ∧
  -999 ≤ rec_seq r ≤ 9999.
Proof.
  unfold read_fields, Py.index.
  destruct (String.get 21 line) as [a|]; [|done].
  destruct (Py.int (Py.strip (Py.slice 22 26 line))) as [n|] eqn:Hn; [|done].
  intros [= <-]. cbn [rec_chain rec_name rec_seq]. split; [|split].
  - rewrite strip_single. destruct (Py.isspace a) eqn:Ha.
    + rewrite decide_True by done. by exists "A"%char.
    + rewrite decide_False by done. by exists a.
  - pose proof (length_strip (Py.slice 17 20 line)).
    pose proof (length_slice 17 20 line). lia.
  - apply (int_bound (Py.strip (Py.slice 22 26 line))); [|done].
    pose proof (length_strip (Py.slice 22 26 line)).
    pose proof (length_slice 22 26 line). lia.
Qed.

End field_bounds.

(** X8.  What the fixed columns allow.  In the Document every chain key is
    one character that is no white space, every residue name has at most
    three characters, and every residue number lies between -999 and 9999:
    the number is read from four columns. *)
Theorem document_field_bounds
    (lines : list string) (c : string) (l : list (Z * string)) (n : Z) (name : string) :
  document lines !! c = Some l →
  (n, name) ∈ l →
  (∃ a, c = String a "" ∧ Py.isspace a = false) ∧
  (String.length name ≤ 3)%nat ∧
  -999 ≤ n ≤ 9999.
Proof.
  intros Hl Hin.
  assert ((n, name) ∈ default [] (document lines !! c)) as H by by rewrite Hl.
  apply document_first_record in H as (r & Hr & <-).
  apply first_record_Some in Hr as [Hrec [<- <-]].
  apply list_elem_of_omap in Hrec as (line & _ & Hline).
  apply (read_fields_shape line). unfold record_of in Hline.
  destruct (Py.startswith line "ATOM"); [|done].
  destruct (read_fields line); [done|]. by injection Hline as ->.
Qed.

Lemma document_field_bounds_witness :
  (∃ a, "B" = String a "" ∧ Py.isspace a = false) ∧
  (String.length "GLY" ≤ 3)%nat ∧ -999 ≤ 7 ≤ 9999.
Proof.
  apply (document_field_bounds sample_lines "B" [(2, "SER"); (7, "GLY")] 7 "GLY").
  - vm_compute. reflexivity.
  - apply (bool_decide_unpack _). vm_compute. exact I.
Defined.

(** ** The formatter, beyond the claims *)

Section formatter_more.

Lemma foldl_extend {A B : Type} (f : B → list A) (init : list A) (l : list B) :
  foldl (λ acc x, (acc ++ f x)%list) init l = (init ++ concat (f <$> l))%list.
Proof.
  revert init. induction l as [|x l IH]; intros init.
  - by rewrite app_nil_r.
  - cbn [foldl]. rewrite IH, fmap_cons, concat_cons. by rewrite app_assoc.
Qed.

Lemma sorted_keys_strict (sequences : gmap string (list (Z * string))) :
  StronglySorted str_before (sorted_keys sequences).
Proof.
  unfold sorted_keys. apply strictly_sorted_strings.
  - apply (sorted_StronglySorted Py.str_lt).
  - rewrite (sorted_Permutation Py.str_lt). apply NoDup_elements.
Qed.

Lemma elem_of_sorted_keys (sequences : gmap string (list (Z * string))) (c : string) :
  c ∈ sorted_keys sequences ↔ is_Some (sequences !! c).
Proof.
  unfold sorted_keys.
  by rewrite (elem_of_sorted Py.str_lt), elem_of_elements, elem_of_dom.
Qed.

(** The codes of the table are single characters, no two names share a
    code, and no code is [X]. *)
Lemma table_shape (name code : string) :
  THREE_TO_ONE !! name = Some code →
  single_character code ∧ code ≠ "X" ∧
  ∀ name', THREE_TO_ONE !! name' = Some code → name' = name.
Proof.
  unfold THREE_TO_ONE. intros Hin%elem_of_list_to_map_2.
  set (table := [ ("ALA", "A"); ("ARG", "R"); ("ASN", "N"); ("ASP", "D"); ("CYS", "C");
                  ("GLU", "E"); ("GLN", "Q"); ("GLY", "G"); ("HIS", "H"); ("ILE", "I");
                  ("LEU", "L"); ("LYS", "K"); ("MET", "M"); ("PHE", "F"); ("PRO", "P");
                  ("SER", "S"); ("THR", "T"); ("TRP", "W"); ("TYR", "Y"); ("VAL", "V") ])
    in *.
  assert (Forall (λ p : string * string,
            String.length p.2 = 1%nat ∧ p.2 ≠ "X" ∧
            Forall (λ q : string * string, q.2 = p.2 → q.1 = p.1) table) table) as Hall.
  { apply (bool_decide_unpack _). vm_compute. exact I. }
  rewrite Forall_forall in Hall. destruct (Hall _ Hin) as (Hlen & HX & Hinj).
  simpl in Hlen, HX, Hinj. split; [|split; [done|]].
  - destruct code as [|a [|b code]]; try done. by exists a.
  - intros name' Hin'%elem_of_list_to_map_2.
    rewrite Forall_forall in Hinj. by apply (Hinj _ Hin').
Qed.

Lemma one_letter_single (name : string) : single_character (one_letter name).
Proof.
  unfold one_letter. destruct (THREE_TO_ONE !! name) as [code|] eqn:E.
  - by apply table_shape in E as [? _].
  - by exists "X"%char.
Qed.

Lemma one_letter_inj (n1 n2 : string) :
  is_Some (THREE_TO_ONE !! n1) → is_Some (THREE_TO_ONE !! n2) →
  one_letter n1 = one_letter n2 → n1 = n2.
Proof.
  unfold one_letter. intros [c1 H1] [c2 H2]. rewrite H1, H2. simpl. intros <-.
  apply table_shape in H1 as (_ & _ & Hinj). symmetry. by apply Hinj.
Qed.

Lemma join_single_cons (a : ascii) (l : list string) :
  Py.join "" (String a "" :: l) = String a (Py.join "" l).
Proof. by destruct l. Qed.

Lemma join_single_length (l : list string) :
  Forall single_character l → String.length (Py.join "" l) = length l.
Proof.
  induction 1 as [|t l [a ->] _ IH]; [done|].
  rewrite join_single_cons. cbn [String.length length]. by rewrite IH.
Qed.

Lemma join_single_inj (l1 l2 : list string) :
  Forall single_character l1 → Forall single_character l2 →
  Py.join "" l1 = Py.join "" l2 → l1 = l2.
Proof.
  intros H1. revert l2. induction H1 as [|t l1 [a ->] _ IH]; intros l2 H2.
  - destruct H2 as [|t l2 [b ->] _]; [done|]. by rewrite join_single_cons.
  - destruct H2 as [|t l2 [b ->] H2]; rewrite !join_single_cons; [done|].
    intros [= -> E]. f_equal. by apply IH.
Qed.

End formatter_more.

(** X9.  The chains are written one after the other, in strictly
    increasing order of their identifiers, each chain once, and the
    residues of a chain stay together in the order of its list. *)
Theorem chains_in_increasing_order (sequences : gmap string (list (Z * string))) :
  StronglySorted str_before (sorted_keys sequences) ∧
  (∀ c, c ∈ sorted_keys sequences ↔ is_Some (sequences !! c)) ∧
  full_sequence_list sequences =
    concat ((λ c, snd <$> default [] (sequences !! c)) <$> sorted_keys sequences).
Proof.
  split; [apply sorted_keys_strict|]. split; [apply elem_of_sorted_keys|].
  unfold full_sequence_list. by rewrite foldl_extend.
Qed.

(** X10.  The two selectors are compared with one value each.  A code
    format other than [one-letter] gives the residue names as they are and
    no warning, as [three-letter] does; an output style other than
    [single-line] gives one token per line, as [multi-line] does. *)
Theorem other_selectors_fall_through
    (sequences : gmap string (list (Z * string))) (code_format output_style : string) :
  (code_format ≠ "one-letter" →
   format_sequence sequences code_format output_style =
     (Py.join (if decide (output_style = "single-line") then " " else newline)
        (full_sequence_list sequences), [])) ∧
  (output_style ≠ "single-line" →
   format_sequence sequences code_format output_style =
     format_sequence sequences code_format "multi-line").
Proof.
  rewrite !format_sequence_eq. unfold token_separator, residue_tokens. split.
  - intros Hcf. rewrite !(decide_False (P := code_format = "one-letter")) by done.
    done.
  - intros Hos. rewrite (decide_False (P := output_style = "single-line")) by done.
    by rewrite (decide_False (P := "multi-line" = "single-line")).
Qed.

Lemma other_selectors_fall_through_witness :
  format_sequence modified_document "3" "1" =
    (Py.join newline (full_sequence_list modified_document), []) ∧
  format_sequence modified_document "3" "1" =
    format_sequence modified_document "3" "multi-line".
Proof.
  destruct (other_selectors_fall_through modified_document "3" "1") as [H1 H2].
  split.
  - apply H1. discriminate.
  - apply H2. discriminate.
Defined.

(** X11.  In one letter on one line the text has one character for each
    residue of the Document, so it is empty only for a Document without
    residues. *)
Theorem one_letter_line_length (sequences : gmap string (list (Z * string))) :
  String.length (format_sequence sequences "one-letter" "single-line").1 =
    length (full_sequence_list sequences).
Proof.
  rewrite format_sequence_eq. cbn [fst]. unfold token_separator, residue_tokens.
  rewrite !(decide_True (P := "one-letter" = "one-letter")) by done.
  rewrite (decide_True (P := "single-line" = "single-line")) by done.
  rewrite join_single_length, length_fmap; [done|].
  apply Forall_fmap, Forall_forall. intros name _. apply one_letter_single.
Qed.

(** X12.  The sentinel is not a code of the table: a residue is rendered
    by [X] exactly when its name is not in the table, which makes the first
    half of the test of line 130 follow from its second half. *)
Theorem sentinel_marks_unknown_names (name : string) :
  one_letter name = "X" ↔ THREE_TO_ONE !! name = None.
Proof.
  unfold one_letter. destruct (THREE_TO_ONE !! name) as [code|] eqn:E.
  - apply table_shape in E as (_ & HX & _). simpl. split; [done | done].
  - done.
Qed.

(** X13.  For Documents of standard residues the one-letter line can be
    read back: two such Documents with the same one-letter text on one
    line have the same sequence of residue names. *)
Theorem one_letter_line_determines_names
    (seqs1 seqs2 : gmap string (list (Z * string))) :
  all_standard seqs1 → all_standard seqs2 →
  (format_sequence seqs1 "one-letter" "single-line").1 =
    (format_sequence seqs2 "one-letter" "single-line").1 →
  full_sequence_list seqs1 = full_sequence_list seqs2.
Proof.
  unfold all_standard. intros H1 H2. rewrite !format_sequence_eq. cbn [fst].
  unfold token_separator, residue_tokens.
  rewrite !(decide_True (P := "one-letter" = "one-letter")) by done.
  rewrite (decide_True (P := "single-line" = "single-line")) by done.
  intros Htokens%join_single_inj.
  - revert H1 H2 Htokens.
    generalize (full_sequence_list seqs1) (full_sequence_list seqs2).
    intros l1. induction l1 as [|x l1 IH]; intros [|y l2] H1 H2; try done.
    rewrite !fmap_cons. intros [= Hxy Hrest].
    apply Forall_cons in H1 as [Hx H1]. apply Forall_cons in H2 as [Hy H2].
    f_equal; [by apply one_letter_inj | by apply IH].
  - apply Forall_fmap, Forall_forall. intros name _. apply one_letter_single.
  - apply Forall_fmap, Forall_forall. intros name _. apply one_letter_single.
Qed.

Lemma one_letter_line_determines_names_witness :
  full_sequence_list scenario_document = full_sequence_list scenario_single_chain.
Proof.
  apply one_letter_line_determines_names.
  - apply (bool_decide_unpack _). vm_compute. exact I.
  - apply (bool_decide_unpack _). vm_compute. exact I.
  - vm_compute. reflexivity.
Defined.

(** ** The whole run, beyond the claims *)

Section run_more.

Lemma main_after_reading (env : environment) (args : arguments) (fs : filesystem)
    (lines : list string) :
  reading env (source args) = ReadOk lines →
  main env args fs =
    let diag := if decide (document lines = ∅) then [WarnNoAtoms]
                else (format_sequence (document lines) (format args)
                        (output_style args)).2 in
    match writing env (target args) (formatted_text lines args +:+ newline) with
    | WriteOk =>
        {| exit_code := 0;
           disk := {| contents :=
                        <[target args := formatted_text lines args +:+ newline]>
                          (contents fs);
                      opened_for_writing :=
                        (opened_for_writing fs ++ [target args])%list |};
           stdout := (progress_lines args ++ [success_line args])%list;
           stderr := (warnings lines ++ diag ++ [])%list |}
    | OpenFails io e =>
        {| exit_code := 1; disk := fs; stdout := progress_lines args;
           stderr := (warnings lines ++ diag
                        ++ [target_error io (target args) e])%list |}
    | WriteFails io e flushed =>
        {| exit_code := 1;
           disk := {| contents := <[target args := flushed]> (contents fs);
                      opened_for_writing :=
                        (opened_for_writing fs ++ [target args])%list |};
           stdout := progress_lines args;
           stderr := (warnings lines ++ diag
                        ++ [target_error io (target args) e])%list |}
    end.
Proof.
  intros Hread. unfold main, formatted_text. rewrite Hread, parse_pdb_sequence_ok.
  destruct (decide (document lines = ∅)) as [Hempty|Hne].
  - rewrite Hempty, format_sequence_empty. cbn [fst].
    unfold write_output.
    by destruct (writing env (target args) ("" +:+ newline)).
  - destruct (format_sequence (document lines) (format args) (output_style args))
      as [text err] eqn:Hfmt.
    cbn [fst snd]. unfold write_output.
    by destruct (writing env (target args) (text +:+ newline)).
Qed.

Lemma warnings_no_atoms (lines : list string) : WarnNoAtoms ∉ warnings lines.
Proof.
  unfold warnings. rewrite process_lines_snd.
  induction lines as [|x lines IH]; [apply not_elem_of_nil|].
  rewrite fmap_cons, concat_cons, elem_of_app, line_warning_skipped.
  intros [H|H]; [|done]. case_decide.
  - by apply list_elem_of_singleton in H.
  - by apply elem_of_nil in H.
Qed.

Lemma main_without_reading (env : environment) (args : arguments) (fs : filesystem) :
  (∀ lines, reading env (source args) ≠ ReadOk lines) →
  ∃ err, main env args fs =
           {| exit_code := 1; disk := fs; stdout := progress_lines args; stderr := err |} ∧
         WarnNoAtoms ∉ err.
Proof.
  intros Hread. unfold main.
  destruct (reading env (source args)) as [|delivered e|lines] eqn:Hsrc.
  - eexists. split; [reflexivity|]. by intros [?|H%elem_of_nil]%elem_of_cons.
  - eexists. split; [reflexivity|]. fold (warnings delivered).
    rewrite elem_of_app, list_elem_of_singleton.
    intros [H|H]; [by apply warnings_no_atoms in H | done].
  - by destruct (Hread lines).
Qed.

Lemma format_sequence_no_atoms (sequences : gmap string (list (Z * string)))
    (code_format output_style : string) :
  WarnNoAtoms ∉ (format_sequence sequences code_format output_style).2.
Proof.
  rewrite format_sequence_eq. cbn [snd].
  case_decide; [|apply not_elem_of_nil].
  destruct (Py.sorted Py.str_lt (elements (unknown_names sequences)));
    [apply not_elem_of_nil|].
  by intros ?%list_elem_of_singleton.
Qed.

Lemma document_empty_iff (lines : list string) :
  document lines = ∅ ↔ Forall (λ line, ¬ readable line) lines.
Proof.
  rewrite <- dom_empty_iff_L, dom_document, dom_final_state. fold (records lines).
  split.
  - intros Hdom. apply Forall_forall. intros line Hin Hread.
    apply record_of_readable in Hread as [r Hr].
    assert (rec_chain r ∈ (list_to_set (rec_chain <$> records lines) : gset string))
      as H; [|by rewrite Hdom in H].
    apply elem_of_list_to_set, list_elem_of_fmap. exists r. split; [done|].
    apply list_elem_of_omap. by exists line.
  - intros Hall. assert (records lines = []) as ->; [|done].
    unfold records. induction Hall as [|x l Hx _ IH]; [done|].
    cbn [omap list_omap]. apply record_of_None in Hx. by rewrite Hx.
Qed.

End run_more.

(** From line 204 on: the exit code is 0 or 1, and it is 0 exactly when
    the source was read to its end and the text, with its newline, was
    written. *)
Lemma main_exit_code (env : environment) (args : arguments) (fs : filesystem) :
  (exit_code (main env args fs) = 0 ∨ exit_code (main env args fs) = 1) ∧
  (exit_code (main env args fs) = 0 ↔
   ∃ lines, reading env (source args) = ReadOk lines ∧
            writing env (target args) (formatted_text lines args +:+ newline) = WriteOk).
Proof.
  destruct (reading env (source args)) as [|delivered e|lines] eqn:Hsrc.
  - destruct (main_without_reading env args fs) as (err & -> & _).
    { intros lines. by rewrite Hsrc. }
    split; [by right|]. split; [done|]. by intros (lines & [=] & _).
  - destruct (main_without_reading env args fs) as (err & -> & _).
    { intros lines. by rewrite Hsrc. }
    split; [by right|]. split; [done|]. by intros (lines & [=] & _).
  - rewrite (main_after_reading env args fs lines Hsrc). cbv zeta.
    destruct (writing env (target args) _) eqn:Hw; cbn [exit_code].
    + split; [by left|]. split; [|done]. intros _. by exists lines.
    + split; [by right|]. split; [done|]. intros (lines' & [= <-] & Hw'). congruence.
    + split; [by right|]. split; [done|]. intros (lines' & [= <-] & Hw'). congruence.
Qed.

(** From line 204 on: standard output receives the two progress lines,
    and after them the success line exactly when the exit code is 0. *)
Lemma main_stdout (env : environment) (args : arguments) (fs : filesystem) :
  stdout (main env args fs) =
    (progress_lines args
       ++ if decide (exit_code (main env args fs) = 0) then [success_line args]
          else [])%list.
Proof.
  destruct (reading env (source args)) as [|delivered e|lines] eqn:Hsrc.
  - destruct (main_without_reading env args fs) as (err & -> & _).
    { intros lines. by rewrite Hsrc. }
    cbn [stdout exit_code]. by rewrite decide_False, app_nil_r.
  - destruct (main_without_reading env args fs) as (err & -> & _).
    { intros lines. by rewrite Hsrc. }
    cbn [stdout exit_code]. by rewrite decide_False, app_nil_r.
  - rewrite (main_after_reading env args fs lines Hsrc). cbv zeta.
    destruct (writing env (target args) _); cbn [stdout exit_code].
    + by rewrite decide_True.
    + by rewrite decide_False, app_nil_r.
    + by rewrite decide_False, app_nil_r.
Qed.

(** X16.  The warning that the file holds no [ATOM] entry is printed
    exactly when the source was read to its end and none of its lines is a
    readable [ATOM] line. *)
Theorem no_atoms_warning_iff (env : environment) (args : arguments) (fs : filesystem) :
  WarnNoAtoms ∈ stderr (main env args fs) ↔
  ∃ lines, reading env (source args) = ReadOk lines ∧
           Forall (λ line, ¬ readable line) lines.
Proof.
  destruct (reading env (source args)) as [|delivered e|lines] eqn:Hsrc.
  - destruct (main_without_reading env args fs) as (err & -> & Herr).
    { intros lines. by rewrite Hsrc. }
    cbn [stderr]. split; [done|]. by intros (lines & [=] & _).
  - destruct (main_without_reading env args fs) as (err & -> & Herr).
    { intros lines. by rewrite Hsrc. }
    cbn [stderr]. split; [done|]. by intros (lines & [=] & _).
  - rewrite (main_after_reading env args fs lines Hsrc). cbv zeta.
    assert (∀ tail, WarnNoAtoms ∉ tail →
              WarnNoAtoms ∈ (warnings lines
                 ++ (if decide (document lines = ∅) then [WarnNoAtoms]
                     else (format_sequence (document lines) (format args)
                             (output_style args)).2) ++ tail)%list ↔
              document lines = ∅) as Hiff.
    { intros tail Htail. rewrite !elem_of_app. split.
      - intros [H|[H|H]]; [by apply warnings_no_atoms in H| |done].
        case_decide; [done|]. by apply format_sequence_no_atoms in H.
      - intros Hempty. right. left. rewrite decide_True by done.
        by apply list_elem_of_singleton. }
    assert (∀ io e, WarnNoAtoms ∉ [target_error io (target args) e]) as Herr.
    { intros [] e H%list_elem_of_singleton; done. }
    assert (document lines = ∅ ↔
            ∃ lines', ReadOk lines = ReadOk lines' ∧
                      Forall (λ line, ¬ readable line) lines') as Hdoc.
    { split.
      - intros H. exists lines. split; [done|]. by apply document_empty_iff.
      - intros (l' & [= <-] & H). by apply document_empty_iff. }
    destruct (writing env (target args) _); cbn [stderr]; rewrite Hiff;
      try apply Herr; try apply not_elem_of_nil; apply Hdoc.
Qed.

(** X17.  A target that cannot be written ends the run with exit code 1
    and the error about the target as last diagnostic.  When the file
    could not be opened no file changed; when the write broke off, the
    target holds what had reached it and the other files are as they were. *)
Theorem unwritable_target_is_fatal
    (env : environment) (args : arguments) (fs : filesystem) (lines : list string) :
  reading env (source args) = ReadOk lines →
  writing env (target args) (formatted_text lines args +:+ newline) ≠ WriteOk →
  exit_code (main env args fs) = 1 ∧
  (∃ earlier io e,
     stderr (main env args fs) = (earlier ++ [target_error io (target args) e])%list) ∧
  match writing env (target args) (formatted_text lines args +:+ newline) with
  | WriteFails _ _ flushed =>
      contents (disk (main env args fs)) = <[target args := flushed]> (contents fs)
  | _ => disk (main env args fs) = fs
  end.
Proof.
  intros Hsrc Hw. rewrite (main_after_reading env args fs lines Hsrc). cbv zeta.
  destruct (writing env (target args) _) as [|io e|io e flushed]; [done|..];
    cbn [exit_code stderr disk contents].
  - split; [done|]. split; [|done]. eexists _, io, e. by rewrite app_assoc.
  - split; [done|]. split; [|done]. eexists _, io, e. by rewrite app_assoc.
Qed.

Lemma no_atoms_warning_iff_witness :
  WarnNoAtoms ∈ stderr (main headers_environment sample_arguments empty_disk).
Proof.
  apply no_atoms_warning_iff.
  exists ["HEADER" +:+ newline; short_line]. split; [reflexivity|].
  apply (bool_decide_unpack _). vm_compute. exact I.
Defined.

Lemma unwritable_target_is_fatal_witness :
  exit_code (main full_disk_environment sample_arguments empty_disk) = 1 ∧
  contents (disk (main full_disk_environment sample_arguments empty_disk)) =
    <["out.txt" := "XS"]> ∅.
Proof.
  destruct (unwritable_target_is_fatal full_disk_environment sample_arguments
              empty_disk sample_lines) as (Hexit & _ & Hdisk).
  - reflexivity.
  - discriminate.
  - split; [exact Hexit | exact Hdisk].
Defined.

(** ** The process, from the command line on *)

(** X14.  The process ends with status 0, 1 or 2.  The status is 2 exactly
    when [parse_args] refuses the command line.  It is 0 exactly when the
    help was asked for, or the command line was accepted, the source was
    read to its end and the text, with its newline, was written. *)
Theorem program_exit_status (cmdline : parse_outcome) (env : environment) (fs : filesystem) :
  (exit_status (program cmdline env fs) = 0 ∨
   exit_status (program cmdline env fs) = 1 ∨
   exit_status (program cmdline env fs) = 2) ∧
  (exit_status (program cmdline env fs) = 2 ↔ ∃ usage, cmdline = UsageError usage) ∧
  (exit_status (program cmdline env fs) = 0 ↔
   (∃ help, cmdline = HelpRequested help) ∨
   (∃ args lines,
      cmdline = Parsed args ∧
      reading env (source args) = ReadOk lines ∧
      writing env (target args) (formatted_text lines args +:+ newline) = WriteOk)).
Proof.
  destruct cmdline as [help|usage|args]; cbn [program exit_status].
  - split; [by left|]. split.
    + split; [done|]. by intros (usage & [=]).
    + split; [|done]. intros _. left. by exists help.
  - split; [by right; right|]. split.
    + split; [|done]. intros _. by exists usage.
    + split; [done|]. intros [(help & [=]) | (args & lines & [=] & _)].
  - destruct (main_exit_code env args fs) as [Hcodes Hzero]. split; [|split].
    + destruct Hcodes; [by left | by right; left].
    + split; [|by intros (usage & [=])]. intros H2. destruct Hcodes; congruence.
    + rewrite Hzero. split.
      * intros (lines & Hread & Hwrite). right. by exists args, lines.
      * intros [(help & [=]) | (args' & lines & [= <-] & Hread & Hwrite)].
        by exists lines.
Qed.

Lemma program_exit_status_witness :
  exit_status (program (Parsed sample_arguments) sample_environment empty_disk) = 0 ∧
  exit_status (program (Parsed sample_arguments) read_only_environment empty_disk) ≠ 0 ∧
  exit_status (program (UsageError "usage") sample_environment empty_disk) = 2.
Proof.
  split; [|split].
  - apply (proj2 (proj2 (program_exit_status (Parsed sample_arguments)
                           sample_environment empty_disk))).
    right. exists sample_arguments, sample_lines.
    split; [reflexivity|]. split; vm_compute; reflexivity.
  - intros H.
    apply (proj1 (proj2 (proj2 (program_exit_status (Parsed sample_arguments)
                                  read_only_environment empty_disk)))) in H.
    destruct H as [(help & H) | (args & lines & _ & _ & H)]; discriminate H.
  - apply (proj2 (proj1 (proj2 (program_exit_status (UsageError "usage")
                                  sample_environment empty_disk)))).
    by exists "usage".
Defined.

(** X15.  The two progress lines are printed in the runs whose command
    line [parse_args] accepts, and in no other; the success line follows
    them exactly when such a run ends with status 0.  A run ended by the
    help prints the help only, and a refused command line prints nothing on
    standard output. *)
Theorem program_stdout (cmdline : parse_outcome) (env : environment) (fs : filesystem) :
  printed_on_stdout (program cmdline env fs) =
    match cmdline with
    | HelpRequested help => [help]
    | UsageError _ => []
    | Parsed args =>
        (progress_lines args
           ++ if decide (exit_status (program cmdline env fs) = 0)
              then [success_line args] else [])%list
    end.
Proof.
  destruct cmdline as [help|usage|args]; cbn [program printed_on_stdout exit_status];
    [done..|].
  apply main_stdout.
Qed.
